(** * ArcadeLauncher: the score store and the per-tick game logic

    A shallow embedding of the parts of the arcade launcher that its
    specification talks about:

    - [Leaderboard]: src/leaderboard.py (the score file and its top-5 lists);
    - [Pygame]: the integer rectangles of pygame.Rect the games rely on;
    - [Breakout]: src/games/breakout/breakout_game.py;
    - [Shooter]: src/games/shooter/shooter_game.py;
    - [Snake]: src/games/snake/snake_game.py;
    - [Pong]: the paddle bounce of src/games/pong/pong_game.py.

    Conventions.  Python integers are [Z].  Python floats (ball velocities,
    enemy speeds) are idealised as exact rationals [Q]: rounding of binary
    floating point is not modelled.  Random draws and the clock are inputs of
    the functions that consume them.  Objects that the source mutates in
    place are records that the functions return updated.  The module
    constants.py is not part of the sources, so its values are parameters. *)

From stdpp Require Import gmap strings list sorting.
From Stdlib Require Import QArith Qabs Lqa.

Local Open Scope Z_scope.

(* ===================================================================== *)
(** ** The score store: src/leaderboard.py *)
(* ===================================================================== *)

Module Leaderboard.

(** The file leaderboard.json as the loader sees it: absent, present with
    text that [json.load] rejects, or present with a document that maps game
    titles to lists of integer scores. *)
Inductive file : Type :=
  | Missing
  | Unparsable (raw : string)
  | Doc (d : gmap string (list Z)).

(** [sorted(l, reverse=True)]: a list of integers has one descending
    arrangement, computed here by stdpp's merge sort. *)
Definition descending : relation Z := λ x y, y ≤ x.

#[global] Instance descending_dec : RelDecision descending.
Proof. intros x y. unfold descending. apply _. Defined.

Definition sorted_reverse (l : list Z) : list Z := merge_sort descending l.

(** [max(scores)] on a non-empty list whose head is [x]. *)
Definition py_max (x : Z) (l : list Z) : Z := foldl Z.max x l.

Section WithTitles.

(** [GAME_TITLES] of constants.py. *)
Variable GAME_TITLES : list string.

(** [{game: [] for game in GAME_TITLES}] *)
Definition empty_leaderboard : gmap string (list Z) :=
  list_to_map ((λ game, (game, @nil Z)) <$> GAME_TITLES).

(** [init_leaderboard]: writes the empty mapping only when no file exists. *)
Definition init_leaderboard (f : file) : file :=
  match f with
  | Missing => Doc empty_leaderboard
  | _ => f
  end.

(** [load_leaderboard]: the mapping handed to the caller, and the file
    afterwards. *)
Definition load_leaderboard (f : file) : gmap string (list Z) * file :=
  match f with
  | Doc d => (d, f)
  | _ => (empty_leaderboard, init_leaderboard f)
  end.

(** [add_score]: the returned flag and the file afterwards. *)
Definition add_score (game_name : string) (score : Z) (f : file)
  : bool * file :=
  let '(leaderboard, _) := load_leaderboard f in
  let leaderboard' :=
    match leaderboard !! game_name with
    | Some scores =>
        <[game_name := take 5 (sorted_reverse (scores ++ [score]))]> leaderboard
    | None => <[game_name := [score]]> leaderboard
    end in
  (true, Doc leaderboard').

(** [get_high_score]: the value returned, and the file afterwards. *)
Definition get_high_score (game_name : string) (f : file) : Z * file :=
  let '(leaderboard, f') := load_leaderboard f in
  (match default [] (leaderboard !! game_name) with
   | x :: l => py_max x l
   | [] => 0
   end, f').

End WithTitles.

End Leaderboard.

(* ===================================================================== *)
(** ** pygame.Rect and float helpers *)
(* ===================================================================== *)

Module Pygame.

(** A [pygame.Rect]: integer position of the top-left corner and size. *)
Record Rect : Type := mkRect { rect_x : Z; rect_y : Z; rect_w : Z; rect_h : Z }.

Definition left (r : Rect) : Z := rect_x r.
Definition top (r : Rect) : Z := rect_y r.
Definition right (r : Rect) : Z := rect_x r + rect_w r.
Definition bottom (r : Rect) : Z := rect_y r + rect_h r.
Definition centerx (r : Rect) : Z := rect_x r + Z.quot (rect_w r) 2.
Definition centery (r : Rect) : Z := rect_y r + Z.quot (rect_h r) 2.

Definition set_x (v : Z) (r : Rect) : Rect := mkRect v (rect_y r) (rect_w r) (rect_h r).
Definition set_y (v : Z) (r : Rect) : Rect := mkRect (rect_x r) v (rect_w r) (rect_h r).
Definition set_width (v : Z) (r : Rect) : Rect := mkRect (rect_x r) (rect_y r) v (rect_h r).
Definition set_height (v : Z) (r : Rect) : Rect := mkRect (rect_x r) (rect_y r) (rect_w r) v.
Definition set_left (v : Z) (r : Rect) : Rect := set_x v r.
Definition set_right (v : Z) (r : Rect) : Rect := set_x (v - rect_w r) r.
Definition set_top (v : Z) (r : Rect) : Rect := set_y v r.
Definition set_bottom (v : Z) (r : Rect) : Rect := set_y (v - rect_h r) r.
Definition set_centerx (v : Z) (r : Rect) : Rect := set_x (v - Z.quot (rect_w r) 2) r.
Definition set_centery (v : Z) (r : Rect) : Rect := set_y (v - Z.quot (rect_h r) 2) r.

(** [a.colliderect(b)]: rectangles of zero width or height collide with
    nothing; otherwise the overlap must be strict on both axes, so rectangles
    that only share an edge do not collide. *)
Definition colliderect (a b : Rect) : bool :=
  if decide (rect_w a = 0 ∨ rect_h a = 0 ∨ rect_w b = 0 ∨ rect_h b = 0) then false
  else
    bool_decide (Z.min (rect_x a) (rect_x a + rect_w a) < Z.max (rect_x b) (rect_x b + rect_w b))
    && bool_decide (Z.min (rect_y a) (rect_y a + rect_h a) < Z.max (rect_y b) (rect_y b + rect_h b))
    && bool_decide (Z.max (rect_x a) (rect_x a + rect_w a) > Z.min (rect_x b) (rect_x b + rect_w b))
    && bool_decide (Z.max (rect_y a) (rect_y a + rect_h a) > Z.min (rect_y b) (rect_y b + rect_h b)).

(** A float stored into a Rect coordinate is truncated toward zero. *)
Definition to_coord (q : Q) : Z := Z.quot (Qnum q) (Z.pos (Qden q)).

(** Python's [min(a, b)] and [max(a, b)] on numbers, and comparisons as
    booleans. *)
Definition fmin (a b : Q) : Q := if Qlt_le_dec b a then b else a.
Definition fmax (a b : Q) : Q := if Qlt_le_dec a b then b else a.
Definition fltb (a b : Q) : bool := if Qlt_le_dec a b then true else false.

End Pygame.

(* ===================================================================== *)
(** ** Breakout: src/games/breakout/breakout_game.py *)
(* ===================================================================== *)

Module Breakout.
Import Pygame.

(** *** class Brick *)

Record Brick : Type := mkBrick {
  brick_rect : Rect;
  brick_color : list Z;
  brick_points : Z;
  brick_strength : Z;
  brick_original_strength : Z
}.

(** [Brick.hit]: the pair the method returns, and the brick afterwards. *)
Definition hit (b : Brick) : (bool * Z) * Brick :=
  let strength := brick_strength b - 1 in
  let color :=
    if decide (brick_original_strength b > 1)
    then (λ c, Z.max (c - 40) 0) <$> brick_color b
    else brick_color b in
  ((bool_decide (strength ≤ 0), brick_points b),
   mkBrick (brick_rect b) color (brick_points b) strength (brick_original_strength b)).

(** *** class Paddle *)

Record Paddle : Type := mkPaddle {
  paddle_width : Z;
  paddle_height : Z;
  paddle_rect : Rect;
  paddle_speed : Z
}.

(** What the paddle reads from the devices in one frame. *)
Record Controls : Type := mkControls {
  mouse_x : Z;
  key_left : bool;
  key_right : bool
}.

(** *** class Ball *)

Record Ball : Type := mkBall {
  radius : Z;
  rect : Rect;
  dx : Q;
  dy : Q;
  speed_increase : Q;
  max_speed : Q;
  attached : bool
}.

Definition set_rect (r : Rect) (b : Ball) : Ball :=
  mkBall (radius b) r (dx b) (dy b) (speed_increase b) (max_speed b) (attached b).
Definition set_velocity (vx vy : Q) (b : Ball) : Ball :=
  mkBall (radius b) (rect b) vx vy (speed_increase b) (max_speed b) (attached b).
Definition set_max_speed (m : Q) (b : Ball) : Ball :=
  mkBall (radius b) (rect b) (dx b) (dy b) (speed_increase b) m (attached b).
Definition set_attached (a : bool) (b : Ball) : Ball :=
  mkBall (radius b) (rect b) (dx b) (dy b) (speed_increase b) (max_speed b) a.

(** *** class PowerUp *)

Inductive PowerUpType : Type := expand | shrink | extra_life | multi_ball.

#[global] Instance PowerUpType_eq_dec : EqDecision PowerUpType.
Proof. solve_decision. Defined.

Record PowerUp : Type := mkPowerUp {
  powerup_rect : Rect;
  powerup_type : PowerUpType;
  powerup_dy : Z
}.

Definition PowerUp_init (x y : Z) (t : PowerUpType) : PowerUp :=
  mkPowerUp (mkRect x y 30 15) t 3.

Section WithConstants.

(** The values imported from constants.py. *)
Variables SCREEN_WIDTH SCREEN_HEIGHT : Z.
Variables BRICK_HEIGHT BRICK_ROWS BRICK_COLS : Z.
Variables PADDLE_WIDTH_BREAKOUT BALL_RADIUS : Z.

Definition Paddle_init : Paddle :=
  mkPaddle PADDLE_WIDTH_BREAKOUT 15
    (mkRect (SCREEN_WIDTH `div` 2 - PADDLE_WIDTH_BREAKOUT `div` 2)
            (SCREEN_HEIGHT - 40) PADDLE_WIDTH_BREAKOUT 15)
    10.

(** [Paddle.update(keys, mouse_control)] *)
Definition Paddle_update (c : Controls) (mouse_control : bool) (p : Paddle) : Paddle :=
  let r0 := paddle_rect p in
  let r1 :=
    if mouse_control then set_centerx (mouse_x c) r0
    else
      let ra := if key_left c then set_x (rect_x r0 - paddle_speed p) r0 else r0 in
      if key_right c then set_x (rect_x ra + paddle_speed p) ra else ra in
  let r2 := if decide (left r1 < 0) then set_left 0 r1 else r1 in
  let r3 := if decide (right r2 > SCREEN_WIDTH) then set_right SCREEN_WIDTH r2 else r2 in
  mkPaddle (paddle_width p) (paddle_height p) r3 (paddle_speed p).

(** [Ball.__init__]; [sign] is the draw of [random.choice([-1, 1])]. *)
Definition Ball_init (sign : Z) : Ball :=
  mkBall BALL_RADIUS
    (mkRect (SCREEN_WIDTH `div` 2 - BALL_RADIUS) (SCREEN_HEIGHT `div` 2 - BALL_RADIUS)
            (BALL_RADIUS * 2) (BALL_RADIUS * 2))
    (inject_Z sign * 5) (-5) (5 # 100) 10 true.

(** [Ball.reset(paddle)] *)
Definition reset (sign : Z) (paddle : Paddle) (b : Ball) : Ball :=
  let r := set_bottom (top (paddle_rect paddle))
             (set_centerx (centerx (paddle_rect paddle)) (rect b)) in
  mkBall (radius b) r (inject_Z sign * 5) (-5) (speed_increase b) (max_speed b) true.

(** [Ball.launch] *)
Definition launch (b : Ball) : Ball :=
  if attached b then set_attached false b else b.

(** The stages of [Ball.update] for a ball in flight, in source order. *)

(** Lines 138-139: [self.rect.x += self.dx], [self.rect.y += self.dy]. *)
Definition move (b : Ball) : Ball :=
  let r := rect b in
  let r' := set_x (to_coord (inject_Z (rect_x r) + dx b)) r in
  set_rect (set_y (to_coord (inject_Z (rect_y r') + dy b)) r') b.

(** Lines 145-153: side walls and ceiling; [u1] and [u2] are the draws of
    [random.uniform(-0.3, 0.3)] used when the branch is taken. *)
Definition wall_collisions (u1 u2 : Q) (b : Ball) : Ball :=
  let b1 :=
    if decide (left (rect b) ≤ 0 ∨ right (rect b) >= SCREEN_WIDTH)
    then set_velocity (- dx b) (dy b + u1) b else b in
  if decide (top (rect b1) ≤ 0)
  then set_velocity (dx b1 + u2) (- dy b1) b1 else b1.

(** Lines 156-165: the bounce off the paddle. *)
Definition paddle_collision (paddle : Paddle) (b : Ball) : Ball :=
  if colliderect (rect b) (paddle_rect paddle) && fltb 0 (dy b) then
    let relative_x :=
      (inject_Z (centerx (rect b) - centerx (paddle_rect paddle))
       / (inject_Z (rect_w (paddle_rect paddle)) / 2))%Q in
    let vx := (relative_x * 7)%Q in
    let vy := (- Qabs (dy b))%Q in
    let vy' := if fltb (Qabs vy) 3 then (-3)%Q else vy in
    set_velocity vx vy' b
  else b.

(** Lines 168-169: the speed limit. *)
Definition limit_speed (b : Ball) : Ball :=
  set_velocity (fmax (fmin (dx b) (max_speed b)) (- max_speed b))
               (fmax (fmin (dy b) (max_speed b)) (- max_speed b)) b.

(** Lines 181-198: which velocity component a struck brick reverses. *)
Definition bounce (prev_x prev_y : Z) (brick : Brick) (b : Ball) : Ball :=
  let dx_entry :=
    if fltb 0 (dx b) then left (brick_rect brick) - (prev_x + rect_w (rect b))
    else prev_x - right (brick_rect brick) in
  let dy_entry :=
    if fltb 0 (dy b) then top (brick_rect brick) - (prev_y + rect_h (rect b))
    else prev_y - bottom (brick_rect brick) in
  if decide (Z.abs dx_entry < Z.abs dy_entry)
  then set_velocity (- dx b) (dy b) b
  else set_velocity (dx b) (- dy b) b.

(** Lines 172-201: the scan of [bricks[:]].  The loop stops at the first
    brick that overlaps the ball, so up to that brick the copy and the live
    list agree; the brick is mutated in place by [hit] and leaves the live
    list when broken.  Result: the ball, the live list, [broken_bricks] and
    [score_change]. *)
Fixpoint brick_collisions (prev_x prev_y : Z) (b : Ball) (bricks : list Brick)
  : Ball * list Brick * list Brick * Z :=
  match bricks with
  | [] => (b, [], [], 0)
  | brick :: rest =>
      if colliderect (rect b) (brick_rect brick) then
        let '((broken, points), brick') := hit brick in
        let b' := bounce prev_x prev_y brick' b in
        if broken then (b', rest, [brick'], points)
        else (b', brick' :: rest, [], 0)
      else
        let '(b', rest', broken_bricks, score_change) :=
          brick_collisions prev_x prev_y b rest in
        (b', brick :: rest', broken_bricks, score_change)
  end.

(** Lines 204-205: the per-tick acceleration. *)
Definition speed_up (b : Ball) : Ball :=
  set_velocity (dx b * (1 + speed_increase b / 100))
               (dy b * (1 + speed_increase b / 100)) b.

(** [Ball.update(paddle, bricks)]: the ball and the live brick list
    afterwards, and the returned [(score_change, broken_bricks)]. *)
Definition Ball_update (u1 u2 : Q) (paddle : Paddle) (bricks : list Brick) (b : Ball)
  : Ball * list Brick * (Z * list Brick) :=
  if attached b then
    (set_rect (set_bottom (top (paddle_rect paddle))
                 (set_centerx (centerx (paddle_rect paddle)) (rect b))) b,
     bricks, (0, []))
  else
    let prev_x := rect_x (rect b) in
    let prev_y := rect_y (rect b) in
    let b1 := limit_speed (paddle_collision paddle (wall_collisions u1 u2 (move b))) in
    let '(b2, bricks', broken_bricks, score_change) :=
      brick_collisions prev_x prev_y b1 bricks in
    (speed_up b2, bricks', (score_change, broken_bricks)).

(** *** create_bricks and the frame loop of run_breakout_game *)

(** [GAME_TITLES] of constants.py, and the list [colors] that
    [create_bricks] derives from the theme (presentation only). *)
Variable GAME_TITLES : list string.
Variable colors : list (list Z).

(** [create_bricks] divides by [BRICK_COLS] and indexes [colors] modulo its
    length; both are positive for the constants of the game, and the errors
    Python would raise otherwise are not modelled. *)
Definition brick_width : Z := (SCREEN_WIDTH - 5 * (BRICK_COLS + 1)) `div` BRICK_COLS.

Definition create_row (row : Z) : list Brick :=
  let color := default [] (colors !! Z.to_nat (row `mod` Z.of_nat (length colors))) in
  let points := BRICK_ROWS - row in
  let strength := if decide (row < 2) then 2 else 1 in
  (λ col, mkBrick (mkRect (5 + col * (brick_width + 5))
                          (50 + row * (BRICK_HEIGHT + 5))
                          brick_width BRICK_HEIGHT)
                  color (points * 10) strength strength)
  <$> seqZ 0 BRICK_COLS.

Definition create_bricks : list Brick :=
  concat (create_row <$> seqZ 0 BRICK_ROWS).

(** The local variables of [run_breakout_game] that outlive a frame. *)
Record Game : Type := mkGame {
  paddle : Paddle;
  ball : Ball;
  bricks : list Brick;
  powerups : list PowerUp;
  game_active : bool;
  game_over : bool;
  paused : bool;
  score : Z;
  lives : Z;
  level : Z;
  mouse_control : bool;
  high_score : Z
}.

(** What one frame of active play consumes: the device state and the random
    draws, each used only if the corresponding statement runs. *)
Record Draws : Type := mkDraws {
  controls : Controls;
  wall_u1 : Q;
  wall_u2 : Q;
  spawn_roll : nat → Q;
  spawn_choice : nat → PowerUpType;
  sign_lost : Z;
  sign_level : Z
}.

(** Lines 588-593: a power-up may drop from each broken brick. *)
Fixpoint spawn_powerups (d : Draws) (i : nat) (broken_bricks : list Brick) : list PowerUp :=
  match broken_bricks with
  | [] => []
  | brick :: rest =>
      (if fltb (spawn_roll d i) (15 # 100)
       then [PowerUp_init (centerx (brick_rect brick)) (centery (brick_rect brick))
               (spawn_choice d i)]
       else [])
      ++ spawn_powerups d (S i) rest
  end.

(** [PowerUp.update]: the flag returned and the power-up afterwards. *)
Definition PowerUp_update (p : PowerUp) : bool * PowerUp :=
  let r := set_y (rect_y (powerup_rect p) + powerup_dy p) (powerup_rect p) in
  (bool_decide (top r > SCREEN_HEIGHT), mkPowerUp r (powerup_type p) (powerup_dy p)).

(** Lines 601-613: the effect of a caught power-up on the paddle and on
    [lives]. *)
Definition apply_powerup (t : PowerUpType) (pl : Paddle * Z) : Paddle * Z :=
  let '(p, lives) := pl in
  match t with
  | expand =>
      let w := Z.min (paddle_width p + 20) 200 in
      (mkPaddle w (paddle_height p) (set_width w (paddle_rect p)) (paddle_speed p), lives)
  | shrink =>
      let w := Z.max (paddle_width p - 20) 40 in
      (mkPaddle w (paddle_height p) (set_width w (paddle_rect p)) (paddle_speed p), lives)
  | extra_life => (p, lives + 1)
  | multi_ball => (p, lives)
  end.

(** Lines 596-614: the loop over [powerups[:]].  Each power-up moves; one
    that leaves the screen or touches the paddle is removed from the live
    list. *)
Fixpoint update_powerups (ps : list PowerUp) (pl : Paddle * Z)
  : list PowerUp * (Paddle * Z) :=
  match ps with
  | [] => ([], pl)
  | powerup :: rest =>
      let '(offscreen, powerup') := PowerUp_update powerup in
      if offscreen then update_powerups rest pl
      else if colliderect (powerup_rect powerup') (paddle_rect pl.1) then
        update_powerups rest (apply_powerup (powerup_type powerup') pl)
      else
        let '(rest', pl') := update_powerups rest pl in
        (powerup' :: rest', pl')
  end.

(** The same loop, keeping what [update_powerups] drops: the power-ups for
    which the branch of line 600 ([powerup.rect.colliderect(paddle.rect)])
    is taken, that is, the power-ups the paddle catches, in the order in
    which it catches them. *)
Fixpoint caught_powerups (ps : list PowerUp) (pl : Paddle * Z) : list PowerUp :=
  match ps with
  | [] => []
  | powerup :: rest =>
      let '(offscreen, powerup') := PowerUp_update powerup in
      if offscreen then caught_powerups rest pl
      else if colliderect (powerup_rect powerup') (paddle_rect pl.1) then
        powerup' :: caught_powerups rest (apply_powerup (powerup_type powerup') pl)
      else caught_powerups rest pl
  end.

(** Lines 579-642: one frame of active, unpaused play.  The score file is
    threaded through because a lost last ball may call [add_score]. *)
Definition play (d : Draws) (g : Game) (f : Leaderboard.file) : Game * Leaderboard.file :=
  let paddle1 := Paddle_update (controls d) (mouse_control g) (paddle g) in
  let '(ball1, bricks1, (points, broken_bricks)) :=
    Ball_update (wall_u1 d) (wall_u2 d) paddle1 (bricks g) (ball g) in
  let score1 := score g + points in
  let powerups1 := powerups g ++ spawn_powerups d 0 broken_bricks in
  let '(powerups2, (paddle2, lives2)) := update_powerups powerups1 (paddle1, lives g) in
  (* the ball is lost *)
  let '(ball3, lives3, active3, over3, f3) :=
    if decide (top (rect ball1) > SCREEN_HEIGHT) then
      let lives' := lives2 - 1 in
      if decide (lives' ≤ 0) then
        (ball1, lives', false, true,
         if decide (score1 > high_score g)
         then (Leaderboard.add_score GAME_TITLES "Breakout" score1 f).2 else f)
      else (reset (sign_lost d) paddle2 ball1, lives', game_active g, game_over g, f)
    else (ball1, lives2, game_active g, game_over g, f) in
  (* the level is complete *)
  match bricks1 with
  | [] =>
      let level' := level g + 1 in
      let ball4 := reset (sign_level d) paddle2 ball3 in
      let ball5 := set_max_speed (max_speed ball4 + 1) ball4 in
      let paddle5 :=
        mkPaddle PADDLE_WIDTH_BREAKOUT (paddle_height paddle2)
          (set_width PADDLE_WIDTH_BREAKOUT (paddle_rect paddle2)) (paddle_speed paddle2) in
      (mkGame paddle5 ball5 create_bricks powerups2 active3 over3 (paused g)
              (score1 + level' * 100) lives3 level' (mouse_control g) (high_score g), f3)
  | _ :: _ =>
      (mkGame paddle2 ball3 bricks1 powerups2 active3 over3 (paused g)
              score1 lives3 (level g) (mouse_control g) (high_score g), f3)
  end.

(** The body of the [while running] loop after event handling: nothing is
    simulated on the start screen, on the game-over screen or while paused. *)
Definition frame (d : Draws) (g : Game) (f : Leaderboard.file) : Game * Leaderboard.file :=
  if negb (game_active g) && negb (game_over g) then (g, f)
  else if game_over g then (g, f)
  else if game_active g then (if paused g then (g, f) else play d g f)
  else (g, f).

(** The state [run_breakout_game] starts from; [sign] is the draw made by
    the [Ball] constructor. *)
Definition new_game (sign : Z) (f : Leaderboard.file) : Game * Leaderboard.file :=
  let '(hs, f') := Leaderboard.get_high_score GAME_TITLES "Breakout" f in
  (mkGame Paddle_init (Ball_init sign) create_bricks [] false false false 0 3 1 true hs, f').

(** Lines 453-462: the "Play Again" button of the game-over screen. *)
Definition restart (sign : Z) (g : Game) : Game :=
  mkGame (paddle g) (reset sign (paddle g) (ball g)) create_bricks [] true false (paused g)
         0 3 1 (mouse_control g) (high_score g).

End WithConstants.

End Breakout.

(* ===================================================================== *)
(** ** Space shooter: src/games/shooter/shooter_game.py *)
(* ===================================================================== *)

Module Shooter.
Import Pygame.

(** Bullets and enemies are plain Python objects, compared by identity by
    [in] and [list.remove].  The field [oid] stands for that identity. *)

Definition obj_in {A} (oid : A → nat) (o : A) (l : list A) : bool :=
  bool_decide (oid o ∈ oid <$> l).

Fixpoint obj_remove {A} (oid : A → nat) (o : A) (l : list A) : list A :=
  match l with
  | [] => []
  | o' :: l' => if decide (oid o' = oid o) then l' else o' :: obj_remove oid o l'
  end.

Record Player : Type := mkPlayer {
  player_rect : Rect;
  player_speed : Z;
  shoot_cooldown : Z;
  cooldown_time : Z;
  player_lives : Z;
  invulnerable : bool;
  invulnerable_timer : Z;
  invulnerable_duration : Z
}.

Record Bullet : Type := mkBullet {
  bullet_oid : nat;
  bullet_rect : Rect;
  bullet_speed : Z
}.

Inductive EnemyType : Type := basic | zigzag | fast.

Record Enemy : Type := mkEnemy {
  enemy_oid : nat;
  enemy_rect : Rect;
  enemy_speed : Q;
  enemy_type : EnemyType;
  zigzag_direction : Z;
  zigzag_counter : Z;
  enemy_points : Z
}.

(** An [Explosion] without its particles, which are only drawn. *)
Record Explosion : Type := mkExplosion {
  explosion_x : Z;
  explosion_y : Z;
  explosion_radius : Z;
  explosion_alpha : Z
}.

Definition Explosion_init (x y : Z) : Explosion := mkExplosion x y 2 255.

Definition Explosion_update (e : Explosion) : bool * Explosion :=
  let e' := mkExplosion (explosion_x e) (explosion_y e)
              (explosion_radius e + 2) (explosion_alpha e - 5) in
  (bool_decide (explosion_alpha e' ≤ 0), e').

(** The keys [Player.update] looks at. *)
Record Keys : Type := mkKeys { go_left : bool; go_right : bool }.

(** The random draws of one [Enemy] constructor call, with the identity of
    the object it creates. *)
Record EnemyDraw : Type := mkEnemyDraw {
  draw_oid : nat;
  draw_x : Z;
  draw_speed : Q;
  draw_type : EnemyType;
  draw_direction : Z
}.

Section WithConstants.

Variables SCREEN_WIDTH SCREEN_HEIGHT : Z.
Variables PLAYER_SPEED BULLET_SPEED ENEMY_FREQUENCY : Z.
Variables PLAYER_SIZE ENEMY_SIZE BULLET_SIZE : Z.
Variable GAME_TITLES : list string.

Definition Player_init : Player :=
  mkPlayer (mkRect (SCREEN_WIDTH `div` 2 - PLAYER_SIZE `div` 2) (SCREEN_HEIGHT - 100)
              PLAYER_SIZE PLAYER_SIZE)
    PLAYER_SPEED 0 250 3 false 0 2000.

(** [Player.update(keys)]; [now] is [pygame.time.get_ticks()]. *)
Definition Player_update (k : Keys) (now : Z) (p : Player) : Player :=
  let r0 := player_rect p in
  let r1 := if go_left k then set_x (rect_x r0 - player_speed p) r0 else r0 in
  let r2 := if go_right k then set_x (rect_x r1 + player_speed p) r1 else r1 in
  let r3 := if decide (left r2 < 0) then set_left 0 r2 else r2 in
  let r4 := if decide (right r3 > SCREEN_WIDTH) then set_right SCREEN_WIDTH r3 else r3 in
  let cd := if decide (shoot_cooldown p > 0) then shoot_cooldown p - 1 else shoot_cooldown p in
  let inv :=
    if invulnerable p
    then (if decide (now - invulnerable_timer p > invulnerable_duration p)
          then false else true)
    else false in
  mkPlayer r4 (player_speed p) cd (cooldown_time p) (player_lives p) inv
    (invulnerable_timer p) (invulnerable_duration p).

Definition Bullet_init (oid : nat) (x y : Z) : Bullet :=
  mkBullet oid (mkRect (x - BULLET_SIZE) (y - BULLET_SIZE) (BULLET_SIZE * 2) (BULLET_SIZE * 2))
    BULLET_SPEED.

(** [Player.shoot]: the bullet returned, if any, and the player afterwards;
    [oid] is the identity of the bullet object that would be created. *)
Definition shoot (oid : nat) (p : Player) : option Bullet * Player :=
  if decide (shoot_cooldown p ≤ 0) then
    (Some (Bullet_init oid (centerx (player_rect p)) (top (player_rect p))),
     mkPlayer (player_rect p) (player_speed p) (cooldown_time p) (cooldown_time p)
       (player_lives p) (invulnerable p) (invulnerable_timer p) (invulnerable_duration p))
  else (None, p).

(** [Player.get_hit]: the flag returned and the player afterwards. *)
Definition get_hit (now : Z) (p : Player) : bool * Player :=
  if negb (invulnerable p) then
    (true,
     mkPlayer (player_rect p) (player_speed p) (shoot_cooldown p) (cooldown_time p)
       (player_lives p - 1) true now (invulnerable_duration p))
  else (false, p).

(** [Bullet.update] *)
Definition Bullet_update (b : Bullet) : bool * Bullet :=
  let r := set_y (rect_y (bullet_rect b) - bullet_speed b) (bullet_rect b) in
  (bool_decide (bottom r < 0), mkBullet (bullet_oid b) r (bullet_speed b)).

(** [Enemy.__init__] *)
Definition Enemy_init (d : EnemyDraw) : Enemy :=
  let r := mkRect (draw_x d) (- ENEMY_SIZE) ENEMY_SIZE ENEMY_SIZE in
  match draw_type d with
  | basic => mkEnemy (draw_oid d) r (draw_speed d) basic (draw_direction d) 0 10
  | zigzag => mkEnemy (draw_oid d) r (draw_speed d) zigzag (draw_direction d) 0 15
  | fast =>
      let w := to_coord (inject_Z ENEMY_SIZE * (8 # 10)) in
      mkEnemy (draw_oid d) (set_height w (set_width w r)) (draw_speed d * (15 # 10))
        fast (draw_direction d) 0 20
  end.

(** [Enemy.update] *)
Definition Enemy_update (e : Enemy) : bool * Enemy :=
  let r1 := set_y (to_coord (inject_Z (rect_y (enemy_rect e)) + enemy_speed e)) (enemy_rect e) in
  let '(r2, dir, counter) :=
    match enemy_type e with
    | zigzag =>
        let counter1 := zigzag_counter e + 1 in
        let '(dir1, counter2) :=
          if decide (counter1 >= 20) then (zigzag_direction e * -1, 0)
          else (zigzag_direction e, counter1) in
        let r := set_x (rect_x r1 + dir1 * 2) r1 in
        let dir2 :=
          if decide (left r ≤ 0) then 1
          else if decide (right r >= SCREEN_WIDTH) then -1 else dir1 in
        (r, dir2, counter2)
    | _ => (r1, zigzag_direction e, zigzag_counter e)
    end in
  (bool_decide (top r2 > SCREEN_HEIGHT),
   mkEnemy (enemy_oid e) r2 (enemy_speed e) (enemy_type e) dir counter (enemy_points e)).

(** The local variables of [run_shooter_game] that outlive a frame. *)
Record Game : Type := mkGame {
  player : Player;
  bullets : list Bullet;
  enemies : list Enemy;
  explosions : list Explosion;
  game_active : bool;
  game_over : bool;
  paused : bool;
  score : Z;
  wave : Z;
  enemy_count : Z;
  last_enemy_time : Z;
  wave_start_time : Z;
  high_score : Z
}.

(** What one frame of active play consumes; the clock is read once. *)
Record Draws : Type := mkDraws {
  keys : Keys;
  now : Z;
  spawn : EnemyDraw
}.

(** Lines 670-672: bullets move; those that left the screen are removed. *)
Fixpoint update_bullets (bs : list Bullet) : list Bullet :=
  match bs with
  | [] => []
  | bullet :: rest =>
      let '(offscreen, bullet') := Bullet_update bullet in
      if offscreen then update_bullets rest else bullet' :: update_bullets rest
  end.

(** Lines 675-680: enemies move; one that escapes below the screen is
    removed and costs a point while the score is positive. *)
Fixpoint update_enemies (es : list Enemy) (score : Z) : list Enemy * Z :=
  match es with
  | [] => ([], score)
  | enemy :: rest =>
      let '(offscreen, enemy') := Enemy_update enemy in
      if offscreen then
        update_enemies rest (if decide (score > 0) then score - 1 else score)
      else
        let '(rest', score') := update_enemies rest score in
        (enemy' :: rest', score')
  end.

(** Lines 683-685 *)
Fixpoint update_explosions (xs : list Explosion) : list Explosion :=
  match xs with
  | [] => []
  | explosion :: rest =>
      let '(done, explosion') := Explosion_update explosion in
      if done then update_explosions rest else explosion' :: update_explosions rest
  end.

(** The part of the state the two collision loops work on. *)
Record Field : Type := mkField {
  f_player : Player;
  f_bullets : list Bullet;
  f_enemies : list Enemy;
  f_explosions : list Explosion;
  f_score : Z;
  f_active : bool;
  f_over : bool
}.

(** Lines 710-721: the body of the inner loop for one bullet and one enemy. *)
Definition bullet_hits_enemy (bullet : Bullet) (enemy : Enemy) (w : Field) : Field :=
  if colliderect (bullet_rect bullet) (enemy_rect enemy) then
    mkField (f_player w)
      (if obj_in bullet_oid bullet (f_bullets w)
       then obj_remove bullet_oid bullet (f_bullets w) else f_bullets w)
      (if obj_in enemy_oid enemy (f_enemies w)
       then obj_remove enemy_oid enemy (f_enemies w) else f_enemies w)
      (f_explosions w ++
         [Explosion_init (centerx (enemy_rect enemy)) (centery (enemy_rect enemy))])
      (f_score w + enemy_points enemy)
      (f_active w) (f_over w)
  else w.

(** Line 709: [for enemy in enemies[:]] over the copy [snapshot]. *)
Fixpoint scan_enemies (bullet : Bullet) (snapshot : list Enemy) (w : Field) : Field :=
  match snapshot with
  | [] => w
  | enemy :: rest => scan_enemies bullet rest (bullet_hits_enemy bullet enemy w)
  end.

(** Line 708: [for bullet in bullets[:]]; the copy of the enemies is taken
    anew for every bullet. *)
Fixpoint scan_bullets (snapshot : list Bullet) (w : Field) : Field :=
  match snapshot with
  | [] => w
  | bullet :: rest => scan_bullets rest (scan_enemies bullet (f_enemies w) w)
  end.

Definition bullet_enemy_collisions (w : Field) : Field :=
  scan_bullets (f_bullets w) w.

(** Lines 725-740: the body of the player-enemy loop for one enemy. *)
Definition enemy_hits_player (now : Z) (high_score : Z) (enemy : Enemy)
    (wf : Field * Leaderboard.file) : Field * Leaderboard.file :=
  let '(w, f) := wf in
  if colliderect (player_rect (f_player w)) (enemy_rect enemy) then
    let '(was_hit, player') := get_hit now (f_player w) in
    if was_hit then
      let explosions' :=
        f_explosions w ++
          [Explosion_init (centerx (enemy_rect enemy)) (centery (enemy_rect enemy))] in
      let enemies' := obj_remove enemy_oid enemy (f_enemies w) in
      if decide (player_lives player' ≤ 0) then
        (mkField player' (f_bullets w) enemies' explosions' (f_score w) false true,
         if decide (f_score w > high_score)
         then (Leaderboard.add_score GAME_TITLES "Space Shooter" (f_score w) f).2 else f)
      else
        (mkField player' (f_bullets w) enemies' explosions' (f_score w)
           (f_active w) (f_over w), f)
    else (w, f)
  else (w, f).

(** Line 724: [for enemy in enemies[:]] *)
Fixpoint scan_player (now : Z) (high_score : Z) (snapshot : list Enemy)
    (wf : Field * Leaderboard.file) : Field * Leaderboard.file :=
  match snapshot with
  | [] => wf
  | enemy :: rest =>
      scan_player now high_score rest (enemy_hits_player now high_score enemy wf)
  end.

Definition player_enemy_collisions (now : Z) (high_score : Z)
    (wf : Field * Leaderboard.file) : Field * Leaderboard.file :=
  scan_player now high_score (f_enemies wf.1) wf.

(** Lines 665-740: one frame of active, unpaused play. *)
Definition play (d : Draws) (g : Game) (f : Leaderboard.file) : Game * Leaderboard.file :=
  let player1 := Player_update (keys d) (now d) (player g) in
  let bullets1 := update_bullets (bullets g) in
  let '(enemies1, score1) := update_enemies (enemies g) (score g) in
  let explosions1 := update_explosions (explosions g) in
  let current_time := now d in
  (* spawn new enemies *)
  let '(enemies2, last2) :=
    if decide (current_time - last_enemy_time g > ENEMY_FREQUENCY) then
      if decide (Z.of_nat (length enemies1) < enemy_count g)
      then (enemies1 ++ [Enemy_init (spawn d)], current_time)
      else (enemies1, last_enemy_time g)
    else (enemies1, last_enemy_time g) in
  (* wave completion *)
  let '(wave3, start3, count3, score3) :=
    if decide (current_time - wave_start_time g > 20000) then
      let wave' := wave g + 1 in
      (wave', current_time, enemy_count g + 2, score1 + wave' * 50)
    else (wave g, wave_start_time g, enemy_count g, score1) in
  let w4 := bullet_enemy_collisions
              (mkField player1 bullets1 enemies2 explosions1 score3
                 (game_active g) (game_over g)) in
  let '(w5, f5) := player_enemy_collisions (now d) (high_score g) (w4, f) in
  (mkGame (f_player w5) (f_bullets w5) (f_enemies w5) (f_explosions w5)
          (f_active w5) (f_over w5) (paused g) (f_score w5)
          wave3 count3 last2 start3 (high_score g), f5).

(** The body of the [while running] loop after event handling.  The
    game-over screen refreshes the cached high score (lines 635-644). *)
Definition frame (d : Draws) (g : Game) (f : Leaderboard.file) : Game * Leaderboard.file :=
  if negb (game_active g) && negb (game_over g) then (g, f)
  else if game_over g then
    (if decide (score g > high_score g)
     then mkGame (player g) (bullets g) (enemies g) (explosions g) (game_active g)
            (game_over g) (paused g) (score g) (wave g) (enemy_count g)
            (last_enemy_time g) (wave_start_time g) (score g)
     else g, f)
  else if game_active g then (if paused g then (g, f) else play d g f)
  else (g, f).

(** The state [run_shooter_game] starts from. *)
Definition new_game (now : Z) (f : Leaderboard.file) : Game * Leaderboard.file :=
  let '(hs, f') := Leaderboard.get_high_score GAME_TITLES "Space Shooter" f in
  (mkGame Player_init [] [] [] false false false 0 1 5 now 0 hs, f').

End WithConstants.

End Shooter.

(* ===================================================================== *)
(** ** Snake: src/games/snake/snake_game.py *)
(* ===================================================================== *)

Module Snake.

Definition cell : Type := (Z * Z)%type.

Record Snake : Type := mkSnake {
  length : Z;
  positions : list cell;
  direction : Z * Z;
  score : Z;
  grow_to : Z;
  dead : bool
}.

(** The reverse of the snake's heading, [(-self.direction[0],
    -self.direction[1])]. *)
Definition opposite (s : Snake) : Z * Z := (- (direction s).1, - (direction s).2).

(** [Snake.change_direction(direction)] *)
Definition change_direction (d : Z * Z) (s : Snake) : Snake :=
  let '(dx, dy) := d in
  if decide ((dx, dy) ≠ opposite s)
  then mkSnake (length s) (positions s) (dx, dy) (score s) (grow_to s) (dead s)
  else s.

(** [Snake.grow] *)
Definition grow (s : Snake) : Snake :=
  mkSnake (length s) (positions s) (direction s) (score s + 10) (grow_to s + 1) (dead s).

(** [list.pop()] on the segment list. *)
Definition pop (l : list cell) : list cell := removelast l.

Section WithConstants.

Variables SCREEN_WIDTH SCREEN_HEIGHT SNAKE_GRID_SIZE : Z.
Variable update_delay : Q.
Variable GAME_TITLES : list string.

(** [Snake.reset]; [d] is the draw of [random.choice] among the four unit
    directions. *)
Definition reset (d : Z * Z) : Snake :=
  mkSnake 3 [(SCREEN_WIDTH `div` 2, SCREEN_HEIGHT `div` 2)] d 0 3 false.

(** [Snake.update].  The segment list is never empty ([reset] starts it with
    one cell and [update] removes at most the cell it has just added), so
    the default of [head] is never used. *)
Definition update (s : Snake) : Snake :=
  if dead s then s
  else
    let head := default (0, 0) (head (positions s)) in
    let '(dx, dy) := direction s in
    let new_head := ((head.1 + dx * SNAKE_GRID_SIZE) `mod` SCREEN_WIDTH,
                     (head.2 + dy * SNAKE_GRID_SIZE) `mod` SCREEN_HEIGHT) in
    if decide (new_head ∈ positions s)
    then mkSnake (length s) (positions s) (direction s) (score s) (grow_to s) true
    else
      let positions1 := new_head :: positions s in
      let positions2 :=
        if decide (Z.of_nat (List.length positions1) > grow_to s)
        then pop positions1 else positions1 in
      mkSnake (length s) positions2 (direction s) (score s) (grow_to s) (dead s).

(** The local variables of [run_snake_game] that outlive a frame. *)
Record Game : Type := mkGame {
  snake : Snake;
  food : cell;
  game_active : bool;
  game_over : bool;
  paused : bool;
  high_score : Z;
  last_update : Q
}.

(** What one frame consumes: the clock and the positions that successive
    calls of [Food.reset] draw. *)
Record Draws : Type := mkDraws {
  current_time : Q;
  food_draws : list cell
}.

(** Lines 393-396: [food.reset()] followed by further resets while the food
    lies on the snake; [cur] is the position drawn last.  The loop is cut off
    when the supplied draws run out. *)
Fixpoint place_food (draws : list cell) (cur : cell) (occupied : list cell) : cell :=
  match draws with
  | [] => cur
  | next :: rest =>
      if decide (cur ∈ occupied) then place_food rest next occupied else cur
  end.

(** Lines 378-396: one frame of active, unpaused play. *)
Definition play (d : Draws) (g : Game) (f : Leaderboard.file) : Game * Leaderboard.file :=
  if Pygame.fltb update_delay (current_time d - last_update g) then
    let snake1 := update (snake g) in
    let '(active1, over1, f1) :=
      if dead snake1
      then (false, true, (Leaderboard.add_score GAME_TITLES "Snake" (score snake1) f).2)
      else (game_active g, game_over g, f) in
    let '(snake2, food2) :=
      if decide (default (0, 0) (head (positions snake1)) = food g) then
        let snake' := grow snake1 in
        match food_draws d with
        | [] => (snake', food g)
        | first :: rest => (snake', place_food rest first (positions snake'))
        end
      else (snake1, food g) in
    (mkGame snake2 food2 active1 over1 (paused g) (high_score g) (current_time d), f1)
  else (g, f).

(** The body of the [while running] loop after event handling.  The
    game-over screen refreshes the cached high score (lines 349-358). *)
Definition frame (d : Draws) (g : Game) (f : Leaderboard.file) : Game * Leaderboard.file :=
  if negb (game_active g) && negb (game_over g) then (g, f)
  else if game_over g then
    (if decide (score (snake g) > high_score g)
     then mkGame (snake g) (food g) (game_active g) (game_over g) (paused g)
            (score (snake g)) (last_update g)
     else g, f)
  else if game_active g then (if paused g then (g, f) else play d g f)
  else (g, f).

End WithConstants.

End Snake.

(* ===================================================================== *)
(** ** Pong: the paddle bounce of src/games/pong/pong_game.py *)
(* ===================================================================== *)

Module Pong.
Import Pygame.

Record Ball : Type := mkBall { rect : Rect; dx : Q; dy : Q }.

(** The exceptions that leave [handle_paddle_collision], which catches
    none.  [SoundError] is the exception of
    [pygame.mixer.Sound(pygame.mixer.Sound.play)]: the constructor is handed
    a method where it takes a file name, a file or a buffer (TypeError; or
    pygame.error when the mixer is not initialised). *)
Inductive Exception : Type :=
  | ZeroDivisionError
  | SoundError.

(** How a call ends. *)
Inductive completion : Type :=
  | Returns
  | Raises (e : Exception).

(** [Ball.get_bounce_sound], line 214: its first statement raises on every
    call. *)
Definition get_bounce_sound : completion := Raises SoundError.

Section WithConstants.

Variable BALL_SPEED_Y : Q.

(** [Ball.handle_paddle_collision(paddle)], given the paddle's rectangle:
    the ball as the call leaves it, and how the call ends.  The division of
    line 184 raises for a paddle without height, after [dx] has been
    reversed; otherwise [dx] and [dy] are set and the call of line 192
    evaluates [self.get_bounce_sound()] first. *)
Definition handle_paddle_collision (paddle_rect : Rect) (b : Ball) : Ball * completion :=
  let vx := (- dx b)%Q in
  if decide (rect_h paddle_rect = 0) then (mkBall (rect b) vx (dy b), Raises ZeroDivisionError)
  else
    let relative_y :=
      (inject_Z (centery paddle_rect - centery (rect b))
       / (inject_Z (rect_h paddle_rect) / 2))%Q in
    let vy := (- relative_y * BALL_SPEED_Y)%Q in
    let vx' := if fltb (Qabs vx) 15 then (vx * (11 # 10))%Q else vx in
    (mkBall (rect b) vx' vy, get_bounce_sound).

End WithConstants.

End Pong.

(* ===================================================================== *)
(** ** Concrete scenes used by the examples *)
(* ===================================================================== *)

Module Scene.

(** The titles the launcher registers. *)
Definition titles : list string :=
  ["Snake"; "Pong"; "Breakout"; "Flappy Bird"; "Space Shooter"]%string.

(** A score file with five Snake scores. *)
Definition five_scores : Leaderboard.file :=
  Leaderboard.Doc {[ "Snake"%string := [9; 8; 6; 5; 4] ]}.

(** Breakout on an 800x600 screen. *)
Definition strong_brick : Breakout.Brick :=
  Breakout.mkBrick (Pygame.mkRect 5 50 74 20) [200; 60; 60] 70 2 2.

Definition weak_brick (x : Z) : Breakout.Brick :=
  Breakout.mkBrick (Pygame.mkRect x 50 74 20) [60; 60; 200] 10 1 1.

(** A ball in flight, of radius 10, with the attributes [Ball.__init__]
    gives it. *)
Definition ball_at (x y : Z) (vx vy : Q) : Breakout.Ball :=
  Breakout.mkBall 10 (Pygame.mkRect x y 20 20) vx vy (5 # 100) 10 false.

(** A paddle of width 40 whose centre is at x = 100. *)
Definition small_paddle : Breakout.Paddle :=
  Breakout.mkPaddle 40 15 (Pygame.mkRect 80 560 40 15) 10.

(** Pong: the left paddle and a ball that touches it. *)
Definition pong_paddle : Pygame.Rect := Pygame.mkRect 30 250 15 100.

Definition pong_ball (vx vy : Q) : Pong.Ball :=
  Pong.mkBall (Pygame.mkRect 40 290 15 15) vx vy.

(** The shooter on an 800x600 screen: one bullet that overlaps two
    enemies. *)
Definition pilot : Shooter.Player := Shooter.Player_init 800 600 5 40.

Definition bullet0 : Shooter.Bullet := Shooter.mkBullet 1 (Pygame.mkRect 100 100 10 10) 10.

Definition enemy_a : Shooter.Enemy :=
  Shooter.mkEnemy 11 (Pygame.mkRect 80 90 30 30) 2 Shooter.basic 1 0 10.

Definition enemy_b : Shooter.Enemy :=
  Shooter.mkEnemy 12 (Pygame.mkRect 105 95 30 30) 2 Shooter.zigzag 1 0 15.

Definition field0 : Shooter.Field :=
  Shooter.mkField pilot [bullet0] [enemy_a; enemy_b] [] 0 true false.

(** Breakout: a session in play with three lives, the ball still on the
    paddle, and an extra-life power-up about to reach the paddle. *)
Definition falling_life : Breakout.PowerUp :=
  Breakout.mkPowerUp (Pygame.mkRect 390 550 30 15) Breakout.extra_life 3.

Definition breakout_game : Breakout.Game :=
  Breakout.mkGame (Breakout.Paddle_init 800 600 100) (Breakout.Ball_init 800 600 10 1)
    [weak_brick 5] [falling_life] true false false 0 3 1 true 0.

Definition breakout_draws : Breakout.Draws :=
  Breakout.mkDraws (Breakout.mkControls 400 false false) 0 0
    (λ _, 1%Q) (λ _, Breakout.expand) 1 1.

(** The shooter: a session in play. *)
Definition shooter_game : Shooter.Game :=
  Shooter.mkGame pilot [bullet0] [enemy_a; enemy_b] [] true false false 5 1 5 0 0 0.

Definition shooter_draws : Shooter.Draws :=
  Shooter.mkDraws (Shooter.mkKeys false false) 100
    (Shooter.mkEnemyDraw 13 200 2 Shooter.fast 1).

(** Snake on an 800x600 screen with cells of 10: a snake of length 3 with
    10 points whose next step lands on its own second segment, while the
    score file holds a high score of 50. *)
Definition one_score : Leaderboard.file :=
  Leaderboard.Doc {[ "Snake"%string := [50] ]}.

Definition snake_game : Snake.Game :=
  Snake.mkGame (Snake.mkSnake 3 [(0, 0); (10, 0); (20, 0)] (1, 0) 10 3 false)
    (50, 50) true false false 50 0.

Definition snake_draws : Snake.Draws := Snake.mkDraws 1 [].

(** Breakout: the last life, with the ball about to fall below the
    screen. *)
Definition last_ball_game : Breakout.Game :=
  Breakout.mkGame (Breakout.Paddle_init 800 600 100) (ball_at 400 596 0 5)
    [weak_brick 5] [] true false false 20 1 1 true 0.

(** The shooter: the last life, with an enemy about to ram the ship. *)
Definition last_life_pilot : Shooter.Player :=
  Shooter.mkPlayer (Pygame.mkRect 380 500 40 40) 5 0 250 1 false 0 2000.

Definition ramming_enemy : Shooter.Enemy :=
  Shooter.mkEnemy 21 (Pygame.mkRect 385 490 30 30) 2 Shooter.basic 1 0 10.

Definition last_life_game : Shooter.Game :=
  Shooter.mkGame last_life_pilot [] [ramming_enemy] [] true false false 5 1 5 0 0 0.

End Scene.

(* ===================================================================== *)
(** * Properties *)
(* ===================================================================== *)

(** ** The score store *)

Module LeaderboardFacts.
Import Leaderboard.

#[local] Instance descending_trans : Transitive descending.
Proof. unfold descending. intros x y z ? ?. lia. Qed.

#[local] Instance descending_total : Total descending.
Proof. unfold descending. intros x y. lia. Qed.

Lemma sorted_reverse_sorted (l : list Z) : StronglySorted descending (sorted_reverse l).
Proof. apply StronglySorted_merge_sort; apply _. Qed.

Lemma sorted_reverse_perm (l : list Z) : sorted_reverse l ≡ₚ l.
Proof. apply merge_sort_Permutation. Qed.

Lemma take_sorted (n : nat) (l : list Z) :
  StronglySorted descending l → StronglySorted descending (take n l).
Proof.
  intros Hs. rewrite <- (take_drop n l) in Hs.
  by apply StronglySorted_app_1_l in Hs.
Qed.

Lemma filter_keeps_all (P : Z → Prop) `{∀ y, Decision (P y)} (t : list Z) :
  Forall P t → filter P t = t.
Proof.
  induction 1 as [|y t Hy _ IH]; [done|].
  by rewrite filter_cons, decide_True, IH.
Qed.

(** An element with fewer than [n] strictly larger elements around it sits
    among the first [n] of the descending arrangement. *)
Lemma take_keeps_ranked (n : nat) (x : Z) (s : list Z) :
  StronglySorted descending s →
  x ∈ s →
  (length (filter (λ y, (x < y)%Z) s) < n)%nat →
  x ∈ take n s.
Proof.
  intros Hs Hx Hrank.
  destruct (decide (x ∈ take n s)) as [|Hnot]; [done|exfalso].
  rewrite <- (take_drop n s) in Hx, Hs, Hrank.
  apply elem_of_app in Hx as [Hx|Hx]; [done|].
  assert (Hall : Forall (λ y, x < y) (take n s)).
  { apply Forall_forall. intros y Hy.
    pose proof (StronglySorted_app_1_elem_of _ _ _ _ _ Hs Hy Hx) as Hyx.
    unfold descending in Hyx.
    destruct (decide (x = y)) as [->|]; [done|lia]. }
  rewrite filter_app, length_app, (filter_keeps_all _ _ Hall) in Hrank.
  assert (length (drop n s) ≠ 0)%nat as Hd by (destruct (drop n s); [inversion Hx|done]).
  rewrite length_drop in Hd. rewrite length_take in Hrank. lia.
Qed.

Section WithTitles.

Variable GAME_TITLES : list string.

Lemma empty_leaderboard_known (game : string) :
  game ∈ GAME_TITLES → empty_leaderboard GAME_TITLES !! game = Some [].
Proof.
  intros Hin. unfold empty_leaderboard.
  induction GAME_TITLES as [|t ts IH]; [inversion Hin|].
  rewrite fmap_cons. cbn [list_to_map foldr]. simpl.
  destruct (decide (t = game)) as [->|Hne].
  - apply lookup_insert_eq.
  - rewrite lookup_insert_ne by done. apply IH.
    apply elem_of_cons in Hin as [->|]; done.
Qed.

Lemma empty_leaderboard_lists (game : string) (l : list Z) :
  empty_leaderboard GAME_TITLES !! game = Some l → l = [].
Proof.
  unfold empty_leaderboard.
  induction GAME_TITLES as [|t ts IH]; [by cbn; rewrite lookup_empty|].
  rewrite fmap_cons. cbn [list_to_map foldr]. simpl.
  destruct (decide (t = game)) as [->|Hne].
  - rewrite lookup_insert_eq. congruence.
  - rewrite lookup_insert_ne by done. apply IH.
Qed.

(** A missing file is created with the empty mapping. *)
Lemma load_missing :
  load_leaderboard GAME_TITLES Missing
  = (empty_leaderboard GAME_TITLES, Doc (empty_leaderboard GAME_TITLES)).
Proof. reflexivity. Qed.

(** What [add_score] leaves in the file. *)
Lemma add_score_file (game : string) (score : Z) (f : file) :
  (add_score GAME_TITLES game score f).2
  = Doc (let lb := (load_leaderboard GAME_TITLES f).1 in
         match lb !! game with
         | Some scores => <[game := take 5 (sorted_reverse (scores ++ [score]))]> lb
         | None => <[game := [score]]> lb
         end).
Proof. unfold add_score. by destruct (load_leaderboard GAME_TITLES f). Qed.

(** C4.  Adding a score for a known game title and loading the file again
    gives, for that title, a descending list of at most five scores, and the
    new score is in it whenever fewer than five of the previously stored
    scores are strictly larger. *)
Theorem C4_add_score_reload (f : file) (game : string) (score : Z) :
  game ∈ GAME_TITLES →
  ∃ l : list Z,
    (load_leaderboard GAME_TITLES (add_score GAME_TITLES game score f).2).1 !! game = Some l
    ∧ StronglySorted descending l
    ∧ (length l ≤ 5)%nat
    ∧ ((length (filter (λ x, (score < x)%Z)
                  (default [] ((load_leaderboard GAME_TITLES f).1 !! game))) < 5)%nat
       → score ∈ l).
Proof.
  intros _. set (old := default [] ((load_leaderboard GAME_TITLES f).1 !! game)).
  rewrite add_score_file. cbn [load_leaderboard fst]. subst old.
  destruct ((load_leaderboard GAME_TITLES f).1 !! game) as [scores|] eqn:Hold.
  - exists (take 5 (sorted_reverse (scores ++ [score]))).
    rewrite lookup_insert_eq. split_and!; [done| | |].
    + apply take_sorted, sorted_reverse_sorted.
    + rewrite length_take. lia.
    + simpl. intros Hrank. apply take_keeps_ranked.
      * apply sorted_reverse_sorted.
      * rewrite sorted_reverse_perm. set_solver.
      * rewrite sorted_reverse_perm, filter_app, length_app.
        rewrite filter_cons, decide_False by lia. simpl. lia.
  - exists [score]. rewrite lookup_insert_eq. split_and!; [done| | |].
    + repeat constructor.
    + simpl. lia.
    + intros _. set_solver.
Qed.

(** C5.  Loading never fails and, for a missing or unparsable file, returns
    the empty list for every known title; but only the missing file is
    (re)created: unparsable text is left in place, because
    [init_leaderboard] writes only when no file exists. *)
Theorem C5_load_missing_or_unparsable (raw : string) :
  (∀ game, game ∈ GAME_TITLES →
     (load_leaderboard GAME_TITLES Missing).1 !! game = Some []
     ∧ (load_leaderboard GAME_TITLES (Unparsable raw)).1 !! game = Some [])
  ∧ (load_leaderboard GAME_TITLES Missing).2 = Doc (empty_leaderboard GAME_TITLES)
  ∧ (load_leaderboard GAME_TITLES (Unparsable raw)).2 = Unparsable raw.
Proof.
  split_and!; [|done|done].
  intros game Hin. split; apply empty_leaderboard_known, Hin.
Qed.

End WithTitles.

End LeaderboardFacts.

Lemma C4_add_score_reload_witness :
  ("Snake"%string ∈ Scene.titles)
  ∧ ∃ l : list Z,
      (Leaderboard.load_leaderboard Scene.titles
         (Leaderboard.add_score Scene.titles "Snake" 7 Scene.five_scores).2).1
        !! "Snake"%string = Some l
      ∧ StronglySorted Leaderboard.descending l
      ∧ (length l ≤ 5)%nat
      ∧ ((length (filter (λ x, (7 < x)%Z)
                    (default [] ((Leaderboard.load_leaderboard Scene.titles Scene.five_scores).1
                         !! "Snake"%string))) < 5)%nat
         → 7 ∈ l).
Proof.
  split; [by left|].
  apply (LeaderboardFacts.C4_add_score_reload Scene.titles). by left.
Defined.

(** ** Snake *)

Module SnakeFacts.
Import Snake.

Lemma change_direction_fields (d : Z * Z) (s : Snake) :
  positions (change_direction d s) = positions s
  ∧ score (change_direction d s) = score s
  ∧ grow_to (change_direction d s) = grow_to s
  ∧ dead (change_direction d s) = dead s.
Proof. unfold change_direction. destruct d. by case_decide. Qed.

(** C10.  [change_direction d] makes [d] the direction unless [d] is the
    exact negation of the current direction, which is then kept; so the new
    direction is never the reverse of a (non-zero) current direction. *)
Theorem C10_change_direction (d : Z * Z) (s : Snake) :
  (d ≠ opposite s → direction (change_direction d s) = d)
  ∧ (d = opposite s → direction (change_direction d s) = direction s)
  ∧ (direction s ≠ (0, 0) → direction (change_direction d s) ≠ opposite s).
Proof.
  unfold change_direction. destruct d as [dx dy].
  case_decide as Hd; simpl; split_and!; try done.
  unfold opposite in *. destruct (direction s) as [cx cy]. simpl in *.
  intros Hz Heq. apply Hz. inversion Heq. f_equal; lia.
Qed.

End SnakeFacts.

Lemma C10_change_direction_witness :
  Snake.direction
    (Snake.change_direction (0, 1) (Snake.mkSnake 3 [(400, 300)] (0, -1) 0 3 false))
  = (0, -1)
  ∧ Snake.direction
      (Snake.change_direction (1, 0) (Snake.mkSnake 3 [(400, 300)] (0, -1) 0 3 false))
    = (1, 0).
Proof.
  split.
  - apply (SnakeFacts.C10_change_direction (0, 1)). reflexivity.
  - apply (SnakeFacts.C10_change_direction (1, 0)). discriminate.
Defined.

(** ** Breakout *)

Module BreakoutFacts.
Import Pygame Breakout.

(** *** Brick.hit *)

Lemma hit_result (k : Brick) :
  (hit k).1 = (bool_decide (brick_strength k - 1 ≤ 0), brick_points k).
Proof. reflexivity. Qed.

Lemma hit_brick (k : Brick) :
  brick_rect (hit k).2 = brick_rect k
  ∧ brick_points (hit k).2 = brick_points k
  ∧ brick_strength (hit k).2 = brick_strength k - 1
  ∧ brick_original_strength (hit k).2 = brick_original_strength k.
Proof. done. Qed.

(** *** The brick scan of Ball.update *)

Lemma bounce_rect (px py : Z) (k : Brick) (b : Ball) :
  rect (bounce px py k b) = rect b.
Proof. unfold bounce. by case_decide. Qed.

(** Without an overlapping brick the scan changes nothing. *)
Lemma brick_collisions_none (px py : Z) (b : Ball) (bricks : list Brick) :
  Forall (λ k, colliderect (rect b) (brick_rect k) = false) bricks →
  brick_collisions px py b bricks = (b, bricks, [], 0).
Proof.
  induction 1 as [|k ks Hk _ IH]; [done|].
  simpl. by rewrite Hk, IH.
Qed.

(** The scan stops at the first overlapping brick: the bricks before it and
    after it are left as they are. *)
Lemma brick_collisions_first (px py : Z) (b : Ball) (pre post : list Brick) (k : Brick) :
  Forall (λ k, colliderect (rect b) (brick_rect k) = false) pre →
  colliderect (rect b) (brick_rect k) = true →
  brick_collisions px py b (pre ++ k :: post)
  = (bounce px py (hit k).2 b,
     pre ++ (if (hit k).1.1 then post else (hit k).2 :: post),
     if (hit k).1.1 then [(hit k).2] else [],
     if (hit k).1.1 then (hit k).1.2 else 0).
Proof.
  intros Hpre Hk. induction Hpre as [|k0 ks Hk0 _ IH].
  - cbn [brick_collisions app]. rewrite Hk.
    by destruct (hit k) as [[[] points] k'].
  - cbn [brick_collisions app]. by rewrite Hk0, IH.
Qed.

(** Either no brick overlaps the ball, or there is a first one. *)
Lemma first_overlap (b : Ball) (bricks : list Brick) :
  Forall (λ k, colliderect (rect b) (brick_rect k) = false) bricks
  ∨ ∃ pre k post,
      bricks = pre ++ k :: post
      ∧ Forall (λ k, colliderect (rect b) (brick_rect k) = false) pre
      ∧ colliderect (rect b) (brick_rect k) = true.
Proof.
  induction bricks as [|k ks IH]; [by left|].
  destruct (colliderect (rect b) (brick_rect k)) eqn:Hk.
  - right. by exists [], k, ks.
  - destruct IH as [Hnone|(pre & k' & post & -> & Hpre & Hk')].
    + left. by constructor.
    + right. exists (k :: pre), k', post. split_and!; [done| |done].
      by constructor.
Qed.

(** One call of the scan hits at most one brick. *)
Lemma brick_collisions_at_most_one (px py : Z) (b : Ball) (bricks : list Brick) :
  let r := brick_collisions px py b bricks in
  (r.1.1.2 = bricks ∧ r.1.2 = [] ∧ r.2 = 0 ∧ r.1.1.1 = b)
  ∨ ∃ pre k post,
      bricks = pre ++ k :: post
      ∧ Forall (λ k, colliderect (rect b) (brick_rect k) = false) pre
      ∧ colliderect (rect b) (brick_rect k) = true
      ∧ r.1.1.2 = pre ++ (if (hit k).1.1 then post else (hit k).2 :: post)
      ∧ r.1.2 = (if (hit k).1.1 then [(hit k).2] else [])
      ∧ r.2 = (if (hit k).1.1 then brick_points k else 0).
Proof.
  intros r. subst r.
  destruct (first_overlap b bricks) as [Hnone|(pre & k & post & -> & Hpre & Hk)].
  - left. by rewrite brick_collisions_none.
  - right. exists pre, k, post. by rewrite brick_collisions_first.
Qed.

(** C8 (as amended).  For a brick of strength 2, [Brick.hit] returns
    "not broken" together with the declared point value on the first strike
    (the value is not 0; it is [Ball.update] that credits nothing for an
    unbroken brick) and "broken" with the declared value on the second.
    The first strike leaves the brick in the live list, the second removes
    it and credits the declared points. *)
Theorem C8_two_hit_brick (px py px' py' : Z) (b b' : Ball)
    (pre post : list Brick) (k : Brick) :
  brick_strength k = 2 →
  Forall (λ k, colliderect (rect b) (brick_rect k) = false) pre →
  colliderect (rect b) (brick_rect k) = true →
  Forall (λ k, colliderect (rect b') (brick_rect k) = false) pre →
  colliderect (rect b') (brick_rect k) = true →
  let first := brick_collisions px py b (pre ++ k :: post) in
  let second := brick_collisions px' py' b' first.1.1.2 in
  (hit k).1 = (false, brick_points k)
  ∧ (hit (hit k).2).1 = (true, brick_points k)
  ∧ first.1.1.2 = pre ++ (hit k).2 :: post
  ∧ first.1.2 = [] ∧ first.2 = 0
  ∧ second.1.1.2 = pre ++ post
  ∧ second.1.2 = [(hit (hit k).2).2] ∧ second.2 = brick_points k.
Proof.
  intros Hs Hpre Hk Hpre' Hk' first second.
  assert (H1 : (hit k).1 = (false, brick_points k)).
  { rewrite hit_result, Hs. done. }
  assert (H2 : (hit (hit k).2).1 = (true, brick_points k)).
  { rewrite hit_result. destruct (hit_brick k) as (_ & -> & -> & _). by rewrite Hs. }
  subst first second.
  rewrite (brick_collisions_first px py b pre post k Hpre Hk), H1. cbn [fst snd].
  rewrite (brick_collisions_first px' py' b' pre post (hit k).2 Hpre'), H2; [done|].
  by destruct (hit_brick k) as (-> & _).
Qed.

(** *** Velocities *)

Lemma limit_bounds (v m : Q) : (0 <= m → - m <= fmax (fmin v m) (- m) <= m)%Q.
Proof.
  intros Hm. unfold fmax, fmin.
  destruct (Qlt_le_dec m v); destruct (Qlt_le_dec _ _); lra.
Qed.

Lemma limit_inside (v m : Q) : (- m <= v <= m → fmax (fmin v m) (- m) == v)%Q.
Proof.
  intros Hv. unfold fmax, fmin.
  destruct (Qlt_le_dec m v); destruct (Qlt_le_dec _ _); lra.
Qed.

Lemma limit_below (v m c : Q) : (v <= c → - m <= c → fmax (fmin v m) (- m) <= c)%Q.
Proof.
  intros Hv Hc. unfold fmax, fmin.
  destruct (Qlt_le_dec m v); destruct (Qlt_le_dec _ _); lra.
Qed.

Lemma fltb_true (a b : Q) : fltb a b = true ↔ (a < b)%Q.
Proof. unfold fltb. destruct (Qlt_le_dec a b); split; try done. lra. Qed.

(** The paddle branch leaves the ball going up at 3 per tick or faster. *)
Lemma bounce_floor (v : Q) :
  ((if fltb (Qabs (- Qabs v)) 3 then -3 else - Qabs v) <= -3)%Q.
Proof.
  destruct (fltb _ _) eqn:Hf; [lra|].
  assert (¬ (Qabs (- Qabs v) < 3)%Q) as Hn by (rewrite <- fltb_true; congruence).
  rewrite Qabs_opp in Hn. rewrite (Qabs_pos (Qabs v)) in Hn by apply Qabs_nonneg.
  lra.
Qed.

(** The stages before the brick scan keep the ball's constants, and only
    [move] changes its rectangle. *)
Lemma wall_collisions_keeps (W : Z) (u1 u2 : Q) (b : Ball) :
  rect (wall_collisions W u1 u2 b) = rect b
  ∧ speed_increase (wall_collisions W u1 u2 b) = speed_increase b
  ∧ max_speed (wall_collisions W u1 u2 b) = max_speed b.
Proof. unfold wall_collisions. by repeat case_decide. Qed.

Lemma move_keeps (b : Ball) :
  speed_increase (move b) = speed_increase b ∧ max_speed (move b) = max_speed b.
Proof. done. Qed.

Lemma paddle_collision_keeps (paddle : Paddle) (b : Ball) :
  rect (paddle_collision paddle b) = rect b
  ∧ speed_increase (paddle_collision paddle b) = speed_increase b
  ∧ max_speed (paddle_collision paddle b) = max_speed b.
Proof. unfold paddle_collision. by destruct (_ && _). Qed.

(** What [Ball.update] computes for a ball in flight. *)
Lemma Ball_update_flying (W : Z) (u1 u2 : Q) (paddle : Paddle) (bricks : list Brick) (b : Ball) :
  attached b = false →
  let b1 := limit_speed (paddle_collision paddle (wall_collisions W u1 u2 (move b))) in
  let r := brick_collisions (rect_x (rect b)) (rect_y (rect b)) b1 bricks in
  Ball_update W u1 u2 paddle bricks b = (speed_up r.1.1.1, r.1.1.2, (r.2, r.1.2)).
Proof.
  intros Ha. unfold Ball_update. rewrite Ha. cbv zeta.
  by destruct (brick_collisions _ _ _ _) as [[[b2 live] broken] points].
Qed.

(** C7 (as amended).  Paddle of width 40 centred at x = 100, ball centre at
    x = 110, ball moving down: the paddle branch sets the horizontal velocity
    to 0.5 * 7 = 3.5 and the vertical velocity to an upward one of magnitude
    at least 3.  The tick then multiplies both by 1 + 0.05/100, so (with no
    brick struck) the ball leaves the tick with horizontal velocity
    3.5 * 1.0005 and an upward vertical velocity of magnitude at least
    3 * 1.0005. *)
Theorem C7_paddle_bounce (W : Z) (u1 u2 : Q) (paddle : Paddle)
    (bricks : list Brick) (b : Ball) :
  let b1 := wall_collisions W u1 u2 (move b) in
  attached b = false →
  rect_w (paddle_rect paddle) = 40 →
  centerx (paddle_rect paddle) = 100 →
  centerx (rect b1) = 110 →
  colliderect (rect b1) (paddle_rect paddle) = true →
  (0 < dy b1)%Q →
  (speed_increase b == 5 # 100)%Q →
  (7 # 2 <= max_speed b)%Q →
  Forall (λ k, colliderect (rect b1) (brick_rect k) = false) bricks →
  let b2 := paddle_collision paddle b1 in
  let b' := (Ball_update W u1 u2 paddle bricks b).1.1 in
  (dx b2 == 7 # 2)%Q ∧ (dy b2 <= -3)%Q
  ∧ (dx b' == (7 # 2) * (10005 # 10000))%Q
  ∧ (dy b' <= -3 * (10005 # 10000))%Q.
Proof.
  intros b1 Ha Hw Hpc Hbc Hcol Hdy Hsi Hmax Hbricks b2 b'.
  assert (Hb2 : b2 = set_velocity
            (inject_Z (110 - 100) / (inject_Z 40 / 2) * 7)%Q
            (if fltb (Qabs (- Qabs (dy b1))) 3 then -3 else - Qabs (dy b1))%Q b1).
  { subst b2. unfold paddle_collision.
    rewrite Hcol, (proj2 (fltb_true 0 (dy b1)) Hdy). cbn [andb].
    by rewrite Hw, Hpc, Hbc. }
  assert (Hdx2 : (dx b2 == 7 # 2)%Q) by (rewrite Hb2; reflexivity).
  assert (Hdy2 : (dy b2 <= -3)%Q) by (rewrite Hb2; apply bounce_floor).
  split_and!; [done|done| |].
  all: subst b'; rewrite Ball_update_flying by done; cbv zeta.
  all: rewrite brick_collisions_none
         by (destruct (paddle_collision_keeps paddle b1) as (Hr & _);
             cbn [limit_speed set_velocity rect]; fold b1 b2; subst b2;
             by rewrite Hr).
  all: cbn [fst snd speed_up limit_speed set_velocity dx dy speed_increase max_speed].
  all: fold b1 b2.
  all: destruct (paddle_collision_keeps paddle b1) as (_ & Hs & Hm); fold b2 in Hs, Hm.
  all: destruct (wall_collisions_keeps W u1 u2 (move b)) as (_ & Hs' & Hm'); fold b1 in Hs', Hm'.
  all: destruct (move_keeps b) as (Hs'' & Hm'').
  all: rewrite Hs, Hs', Hs'', Hm, Hm', Hm'', Hsi.
  - rewrite limit_inside by lra. rewrite Hdx2. reflexivity.
  - assert (fmax (fmin (dy b2) (max_speed b)) (- max_speed b) <= -3)%Q as Hle
      by (apply limit_below; lra).
    assert (1 + (5 # 100) / 100 == 10005 # 10000)%Q as -> by reflexivity.
    lra.
Qed.

(** The brick scan may reverse a velocity component but never changes its
    magnitude. *)
Lemma brick_collisions_speed (px py : Z) (b : Ball) (bricks : list Brick) :
  let b2 := (brick_collisions px py b bricks).1.1.1 in
  (Qabs (dx b2) == Qabs (dx b))%Q ∧ (Qabs (dy b2) == Qabs (dy b))%Q
  ∧ speed_increase b2 = speed_increase b ∧ max_speed b2 = max_speed b.
Proof.
  induction bricks as [|k ks IH]; [done|].
  cbn [brick_collisions]. destruct (colliderect _ _).
  - destruct (hit k) as [[[] points] k']; cbn [fst];
      unfold bounce; case_decide; cbn [set_velocity dx dy speed_increase max_speed];
      rewrite ?Qabs_opp; done.
  - destruct (brick_collisions px py b ks) as [[[b2 live] broken] points]. exact IH.
Qed.

(** The bound that [Ball.update] does maintain: the speed limit is applied
    before the acceleration, so a component may exceed [max_speed] by the
    acceleration factor. *)
Lemma Ball_update_speed_bound (W : Z) (u1 u2 : Q) (paddle : Paddle)
    (bricks : list Brick) (b : Ball) :
  attached b = false →
  (0 <= max_speed b)%Q → (0 <= speed_increase b)%Q →
  let b' := (Ball_update W u1 u2 paddle bricks b).1.1 in
  (Qabs (dx b') <= max_speed b * (1 + speed_increase b / 100))%Q
  ∧ (Qabs (dy b') <= max_speed b * (1 + speed_increase b / 100))%Q.
Proof.
  intros Ha Hm Hs b'. subst b'. rewrite Ball_update_flying by done. cbv zeta.
  set (b0 := paddle_collision paddle (wall_collisions W u1 u2 (move b))).
  assert (Hm0 : max_speed b0 = max_speed b).
  { subst b0. destruct (paddle_collision_keeps paddle (wall_collisions W u1 u2 (move b)))
      as (_ & _ & ->).
    by destruct (wall_collisions_keeps W u1 u2 (move b)) as (_ & _ & ->). }
  assert (Hs0 : speed_increase b0 = speed_increase b).
  { subst b0. destruct (paddle_collision_keeps paddle (wall_collisions W u1 u2 (move b)))
      as (_ & -> & _).
    by destruct (wall_collisions_keeps W u1 u2 (move b)) as (_ & -> & _). }
  destruct (brick_collisions_speed (rect_x (rect b)) (rect_y (rect b))
              (limit_speed b0) bricks) as (Hx & Hy & Hs2 & Hm2).
  cbn [fst snd speed_up set_velocity dx dy].
  rewrite Hs2. cbn [limit_speed set_velocity speed_increase]. rewrite Hs0.
  assert (Hc : (0 <= 1 + speed_increase b / 100)%Q).
  { assert (0 <= speed_increase b / 100)%Q; [|lra].
    apply Qle_shift_div_l; lra. }
  rewrite !Qabs_Qmult, (Qabs_pos (1 + _)) by done.
  rewrite Hx, Hy. cbn [limit_speed set_velocity dx dy]. rewrite Hm0.
  split; apply Qmult_le_compat_r; try done; apply Qabs_Qle_condition, limit_bounds, Hm.
Qed.

End BreakoutFacts.

Lemma C8_two_hit_brick_witness :
  let first := Breakout.brick_collisions 30 65 (Scene.ball_at 30 60 3 (-4)) [Scene.strong_brick] in
  let second := Breakout.brick_collisions 30 65 (Scene.ball_at 30 60 3 (-4)) first.1.1.2 in
  (Breakout.hit Scene.strong_brick).1 = (false, 70)
  ∧ (Breakout.hit (Breakout.hit Scene.strong_brick).2).1 = (true, 70)
  ∧ first.1.1.2 = [(Breakout.hit Scene.strong_brick).2]
  ∧ first.1.2 = [] ∧ first.2 = 0
  ∧ second.1.1.2 = []
  ∧ second.1.2 = [(Breakout.hit (Breakout.hit Scene.strong_brick).2).2] ∧ second.2 = 70.
Proof.
  apply (BreakoutFacts.C8_two_hit_brick 30 65 30 65
           (Scene.ball_at 30 60 3 (-4)) (Scene.ball_at 30 60 3 (-4))
           [] [] Scene.strong_brick).
  - reflexivity.
  - constructor.
  - reflexivity.
  - constructor.
  - reflexivity.
Defined.

(** C8, as first stated, fails: the first strike on a brick of strength 2
    and point value 70 makes [Brick.hit] return the points 70, not 0. *)
Lemma C8_first_hit_returns_points :
  Breakout.brick_strength Scene.strong_brick = 2
  ∧ (Breakout.hit Scene.strong_brick).1 = (false, 70)
  ∧ (Breakout.hit Scene.strong_brick).1 ≠ (false, 0).
Proof. split_and!; [reflexivity|reflexivity|discriminate]. Qed.

Lemma C7_paddle_bounce_witness :
  let b1 := Breakout.wall_collisions 800 0 0 (Breakout.move (Scene.ball_at 100 541 0 5)) in
  let b2 := Breakout.paddle_collision Scene.small_paddle b1 in
  let b' := (Breakout.Ball_update 800 0 0 Scene.small_paddle [Scene.strong_brick]
               (Scene.ball_at 100 541 0 5)).1.1 in
  (Breakout.dx b2 == 7 # 2)%Q ∧ (Breakout.dy b2 <= -3)%Q
  ∧ (Breakout.dx b' == (7 # 2) * (10005 # 10000))%Q
  ∧ (Breakout.dy b' <= -3 * (10005 # 10000))%Q.
Proof.
  apply (BreakoutFacts.C7_paddle_bounce 800 0 0 Scene.small_paddle [Scene.strong_brick]
           (Scene.ball_at 100 541 0 5)).
  - reflexivity.
  - reflexivity.
  - reflexivity.
  - reflexivity.
  - reflexivity.
  - reflexivity.
  - reflexivity.
  - discriminate.
  - repeat constructor.
Defined.

(** C7, as first stated, fails: in the scenario of the claim the ball leaves
    the tick with horizontal velocity 3.50175, not 3.5, because the
    per-tick acceleration follows the paddle branch. *)
Lemma C7_velocity_after_tick :
  let b := Scene.ball_at 100 541 0 5 in
  let b1 := Breakout.wall_collisions 800 0 0 (Breakout.move b) in
  let b' := (Breakout.Ball_update 800 0 0 Scene.small_paddle [] b).1.1 in
  Pygame.rect_w (Breakout.paddle_rect Scene.small_paddle) = 40
  ∧ Pygame.centerx (Breakout.paddle_rect Scene.small_paddle) = 100
  ∧ Pygame.centerx (Breakout.rect b1) = 110
  ∧ Pygame.colliderect (Breakout.rect b1) (Breakout.paddle_rect Scene.small_paddle) = true
  ∧ (0 < Breakout.dy b1)%Q
  ∧ (Breakout.dx b' == 350175 # 100000)%Q
  ∧ ¬ (Breakout.dx b' == (5 # 10) * 7)%Q.
Proof. split_and!; try reflexivity. discriminate. Qed.

(** C3.  The claimed bound does not hold in breakout.  [Ball.update]
    applies the speed limit before the per-tick acceleration, so a ball in
    free flight at the speed limit (vertical velocity -10, [max_speed] 10)
    leaves the update with vertical speed 10.005, above its [max_speed]. *)
Theorem C3_speed_cap_exceeded :
  let b := Scene.ball_at 400 300 3 (-10) in
  let b' := (Breakout.Ball_update 800 0 0 Scene.small_paddle [] b).1.1 in
  Breakout.attached b = false
  ∧ (Qabs (Breakout.dy b) <= Breakout.max_speed b)%Q
  ∧ (Breakout.max_speed b' == 10)%Q
  ∧ (Qabs (Breakout.dy b') == 10005 # 1000)%Q
  ∧ (Breakout.max_speed b' < Qabs (Breakout.dy b'))%Q.
Proof.
  split_and!; [reflexivity|discriminate|reflexivity|reflexivity|reflexivity].
Qed.

(** ** Pong *)

Module PongFacts.
Import Pygame Pong.

(** No call of [handle_paddle_collision] returns: the division raises for a
    paddle without height, and otherwise the sound of line 192 does, once
    both velocity components have been set. *)
Lemma handle_paddle_collision_raises (BALL_SPEED_Y : Q) (paddle_rect : Rect) (b : Ball) :
  let r := handle_paddle_collision BALL_SPEED_Y paddle_rect b in
  r.2 = (if decide (rect_h paddle_rect = 0) then Raises ZeroDivisionError
         else Raises SoundError)
  ∧ r.2 ≠ Returns
  ∧ rect r.1 = rect b
  ∧ (dx r.1 == (if fltb (Qabs (dx b)) 15 && bool_decide (rect_h paddle_rect ≠ 0%Z)
                then - dx b * (11 # 10) else - dx b))%Q.
Proof.
  intros r. subst r. unfold handle_paddle_collision, get_bounce_sound.
  case_decide as Hh; cbn [fst snd rect dx].
  - rewrite bool_decide_eq_false_2 by (intros H; by apply H).
    rewrite andb_false_r. by split_and!.
  - rewrite bool_decide_eq_true_2 by done. rewrite andb_true_r.
    assert (Ha : fltb (Qabs (- dx b)) 15 = fltb (Qabs (dx b)) 15).
    { unfold fltb. pose proof (Qabs_opp (dx b)) as Ho.
      destruct (Qlt_le_dec (Qabs (- dx b)) 15), (Qlt_le_dec (Qabs (dx b)) 15);
        try done; rewrite Ho in *; lra. }
    rewrite Ha. by split_and!.
Qed.

(** The ball that touches the left paddle with horizontal velocity -14 is
    left, when the exception leaves the method, with horizontal velocity
    15.4. *)
Example pong_ball_at_the_raise :
  let r := handle_paddle_collision 5 Scene.pong_paddle (Scene.pong_ball (-14) 2) in
  r.2 = Raises SoundError ∧ (dx r.1 == 154 # 10)%Q.
Proof. split; reflexivity. Qed.

End PongFacts.

(** ** Space shooter *)

Module ShooterFacts.
Import Pygame Shooter.

(** *** Identity-based membership and removal *)

Lemma obj_remove_absent {A} (oid : A → nat) (o : A) (l : list A) :
  oid o ∉ oid <$> l → obj_remove oid o l = l.
Proof.
  induction l as [|o' l IH]; [done|].
  rewrite fmap_cons, not_elem_of_cons. intros [Hne Hnot].
  simpl. rewrite decide_False by done. by rewrite IH.
Qed.

Lemma obj_remove_middle {A} (oid : A → nat) (o : A) (l1 l2 : list A) :
  oid o ∉ oid <$> l1 → obj_remove oid o (l1 ++ o :: l2) = l1 ++ l2.
Proof.
  induction l1 as [|o' l1 IH]; simpl.
  - intros _. by rewrite decide_True.
  - rewrite not_elem_of_cons. intros [Hne Hnot].
    rewrite decide_False by done. by rewrite IH.
Qed.

(** The guard [if o in l] does not change what [l.remove(o)] leaves. *)
Lemma guarded_remove {A} (oid : A → nat) (o : A) (l : list A) :
  (if obj_in oid o l then obj_remove oid o l else l) = obj_remove oid o l.
Proof.
  unfold obj_in. case_bool_decide; [done|]. by rewrite obj_remove_absent.
Qed.

Lemma obj_remove_gone {A} (oid : A → nat) (o : A) (l : list A) :
  NoDup (oid <$> l) → oid o ∉ oid <$> obj_remove oid o l.
Proof.
  induction l as [|o' l IH]; simpl; [intros _; apply not_elem_of_nil|].
  rewrite NoDup_cons. intros [Hnot Hnd].
  case_decide as Heq.
  - by rewrite <- Heq.
  - rewrite fmap_cons, not_elem_of_cons. split; [done|by apply IH].
Qed.

Lemma obj_remove_twice {A} (oid : A → nat) (o : A) (l : list A) :
  NoDup (oid <$> l) → obj_remove oid o (obj_remove oid o l) = obj_remove oid o l.
Proof. intros Hnd. by apply obj_remove_absent, obj_remove_gone. Qed.

Lemma obj_remove_subset {A} (oid : A → nat) (o : A) (l : list A) (i : nat) :
  i ∈ oid <$> obj_remove oid o l → i ∈ oid <$> l.
Proof.
  induction l as [|o' l IH]; simpl; [done|].
  case_decide.
  - intros Hi. by right.
  - rewrite fmap_cons, !elem_of_cons. intros [->|Hi]; [by left|right; by apply IH].
Qed.

Lemma obj_remove_NoDup {A} (oid : A → nat) (o : A) (l : list A) :
  NoDup (oid <$> l) → NoDup (oid <$> obj_remove oid o l).
Proof.
  induction l as [|o' l IH]; simpl; [done|].
  rewrite NoDup_cons. intros [Hnot Hnd]. case_decide; [done|].
  rewrite fmap_cons, NoDup_cons. split; [|by apply IH].
  intros Hin. by apply Hnot, (obj_remove_subset oid o).
Qed.

(** *** The bullet-enemy scan *)

(** The scan of one bullet against the copy of the enemy list does not stop
    at the first overlap: every overlapping enemy is scored and removed; the
    bullet itself leaves the live list once.  [kept] are the enemies of the
    copy already passed over and still alive. *)
Lemma scan_enemies_spec (bullet : Bullet) (rest : list Enemy) :
  ∀ (kept : list Enemy) (w : Field),
  NoDup (enemy_oid <$> (kept ++ rest)) →
  NoDup (bullet_oid <$> f_bullets w) →
  f_enemies w = kept ++ rest →
  let w' := scan_enemies bullet rest w in
  f_enemies w'
    = kept ++ filter (λ e, colliderect (bullet_rect bullet) (enemy_rect e) = false) rest
  ∧ f_score w'
    = f_score w + foldr Z.add 0 (enemy_points <$>
        filter (λ e, colliderect (bullet_rect bullet) (enemy_rect e) = true) rest)
  ∧ f_bullets w'
    = (if decide (Exists (λ e, colliderect (bullet_rect bullet) (enemy_rect e) = true) rest)
       then obj_remove bullet_oid bullet (f_bullets w) else f_bullets w)
  ∧ f_player w' = f_player w ∧ f_active w' = f_active w ∧ f_over w' = f_over w.
Proof.
  induction rest as [|e rest IH]; intros kept w Hnd Hnb Hw; cbn [scan_enemies].
  - rewrite decide_False by (intros H; inversion H).
    rewrite Hw. cbn. by rewrite Z.add_0_r.
  - destruct (colliderect (bullet_rect bullet) (enemy_rect e)) eqn:Hc.
    + assert (Hstep : bullet_hits_enemy bullet e w
                = mkField (f_player w) (obj_remove bullet_oid bullet (f_bullets w))
                    (obj_remove enemy_oid e (f_enemies w))
                    (f_explosions w ++
                       [Explosion_init (centerx (enemy_rect e)) (centery (enemy_rect e))])
                    (f_score w + enemy_points e) (f_active w) (f_over w)).
      { unfold bullet_hits_enemy. by rewrite Hc, !guarded_remove. }
      rewrite Hstep. clear Hstep.
      assert (Hke : enemy_oid e ∉ enemy_oid <$> kept).
      { rewrite fmap_app, fmap_cons in Hnd. apply NoDup_app in Hnd as (_ & Hd & _).
        intros Hin. apply (Hd _ Hin). by left. }
      assert (Hnd' : NoDup (enemy_oid <$> (kept ++ rest))).
      { rewrite fmap_app, fmap_cons in Hnd. rewrite fmap_app.
        apply NoDup_app in Hnd as (H1 & H2 & H3). apply NoDup_cons in H3 as [_ H3].
        apply NoDup_app. split_and!; [done| |done].
        intros x Hx Hx'. apply (H2 x Hx). by right. }
      set (w1 := mkField _ _ _ _ _ _ _).
      destruct (IH kept w1) as (He & Hs & Hb & Hp & Ha & Ho);
        [exact Hnd'|by apply obj_remove_NoDup
        |cbn [w1 f_enemies]; rewrite Hw; by apply obj_remove_middle|].
      rewrite He, Hs, Hb, Hp, Ha, Ho. cbn [w1 f_score f_bullets f_player f_active f_over].
      rewrite obj_remove_twice by done.
      rewrite !filter_cons, Hc, decide_False, decide_True by done.
      rewrite (decide_True (P := Exists _ (e :: rest))) by (by left).
      rewrite fmap_cons. cbn [foldr]. split_and!; try done; [lia|].
      by case_decide.
    + assert (Hstep : bullet_hits_enemy bullet e w = w)
        by (unfold bullet_hits_enemy; by rewrite Hc).
      rewrite Hstep. clear Hstep.
      destruct (IH (kept ++ [e]) w) as (He & Hs & Hb & Hp & Ha & Ho);
        [by rewrite <- app_assoc|exact Hnb|by rewrite <- app_assoc|].
      rewrite He, Hs, Hb, Hp, Ha, Ho.
      rewrite !filter_cons, Hc, decide_True, decide_False by done.
      rewrite <- app_assoc. split_and!; try done.
      repeat case_decide; try done.
      * exfalso. match goal with H : ¬ Exists _ _ |- _ => apply H end. by right.
      * exfalso. match goal with H : Exists _ (_ :: _) |- _ =>
          apply Exists_cons in H as [H|H] end; [congruence|done].
Qed.

Lemma obj_remove_Forall {A} (oid : A → nat) (P : A → Prop) (o : A) (l : list A) :
  Forall P l → Forall P (obj_remove oid o l).
Proof.
  induction 1 as [|o' l Ho' Hl IH]; simpl; [done|].
  case_decide; [done|by constructor].
Qed.

(** The bullet-enemy scan touches neither the player nor the session flags,
    and with enemies worth a non-negative number of points it never lowers
    the score. *)
Lemma scan_enemies_mono (P : Enemy → Prop) (bullet : Bullet) (snapshot : list Enemy) :
  ∀ w : Field,
  Forall (λ e, 0 ≤ enemy_points e) snapshot →
  Forall P (f_enemies w) →
  let w' := scan_enemies bullet snapshot w in
  f_score w ≤ f_score w' ∧ Forall P (f_enemies w')
  ∧ f_player w' = f_player w ∧ f_active w' = f_active w ∧ f_over w' = f_over w.
Proof.
  induction snapshot as [|e rest IH]; intros w Hpts HP; cbn [scan_enemies]; cbv zeta;
    [done|].
  apply Forall_cons in Hpts as [He Hrest].
  destruct (IH (bullet_hits_enemy bullet e w) Hrest) as (Hs & HP' & Hp & Ha & Ho).
  - unfold bullet_hits_enemy. destruct (colliderect _ _); [|done].
    cbn [f_enemies]. rewrite guarded_remove. by apply obj_remove_Forall.
  - rewrite Hp, Ha, Ho. split_and!; [|done|..].
    all: unfold bullet_hits_enemy in *; destruct (colliderect _ _); cbn in *; try done; lia.
Qed.

Lemma scan_enemies_keeps (bullet : Bullet) (snapshot : list Enemy) :
  ∀ w : Field,
  let w' := scan_enemies bullet snapshot w in
  f_player w' = f_player w ∧ f_active w' = f_active w ∧ f_over w' = f_over w.
Proof.
  induction snapshot as [|e rest IH]; intros w; cbn [scan_enemies]; cbv zeta; [done|].
  destruct (IH (bullet_hits_enemy bullet e w)) as (-> & -> & ->).
  unfold bullet_hits_enemy. by destruct (colliderect _ _).
Qed.

Lemma scan_bullets_keeps (snapshot : list Bullet) :
  ∀ w : Field,
  let w' := scan_bullets snapshot w in
  f_player w' = f_player w ∧ f_active w' = f_active w ∧ f_over w' = f_over w.
Proof.
  induction snapshot as [|b rest IH]; intros w; cbn [scan_bullets]; cbv zeta; [done|].
  destruct (IH (scan_enemies b (f_enemies w) w)) as (-> & -> & ->).
  apply scan_enemies_keeps.
Qed.

Lemma scan_bullets_mono (snapshot : list Bullet) :
  ∀ w : Field,
  Forall (λ e, 0 ≤ enemy_points e) (f_enemies w) →
  let w' := scan_bullets snapshot w in
  f_score w ≤ f_score w' ∧ Forall (λ e, 0 ≤ enemy_points e) (f_enemies w')
  ∧ f_player w' = f_player w ∧ f_active w' = f_active w ∧ f_over w' = f_over w.
Proof.
  induction snapshot as [|b rest IH]; intros w Hpts; cbn [scan_bullets]; cbv zeta.
  { split; [apply Z.le_refl|done]. }
  destruct (scan_enemies_mono (λ e, 0 ≤ enemy_points e) b (f_enemies w) w Hpts Hpts)
    as (Hs & HP & Hp & Ha & Ho).
  destruct (IH _ HP) as (Hs' & HP' & Hp' & Ha' & Ho').
  rewrite Hp', Ha', Ho', Hp, Ha, Ho. split_and!; try done. lia.
Qed.

Lemma bullet_enemy_collisions_mono (w : Field) :
  Forall (λ e, 0 ≤ enemy_points e) (f_enemies w) →
  let w' := bullet_enemy_collisions w in
  f_score w ≤ f_score w' ∧ Forall (λ e, 0 ≤ enemy_points e) (f_enemies w')
  ∧ f_player w' = f_player w ∧ f_active w' = f_active w ∧ f_over w' = f_over w.
Proof. apply scan_bullets_mono. Qed.

Section WithConstants.

Variables SCREEN_WIDTH SCREEN_HEIGHT : Z.
Variables PLAYER_SPEED BULLET_SPEED ENEMY_FREQUENCY : Z.
Variables PLAYER_SIZE ENEMY_SIZE BULLET_SIZE : Z.
Variable GAME_TITLES : list string.

(** *** Enemies that escape *)

Lemma Enemy_update_points (e : Enemy) :
  enemy_points (Enemy_update SCREEN_WIDTH SCREEN_HEIGHT e).2 = enemy_points e.
Proof. unfold Enemy_update. by destruct (enemy_type e); repeat case_decide. Qed.

(** The miss penalty: one point per escaped enemy, never below zero. *)
Lemma update_enemies_score (es : list Enemy) :
  ∀ score : Z,
  0 ≤ score →
  let r := update_enemies SCREEN_WIDTH SCREEN_HEIGHT es score in
  0 ≤ r.2 ∧ r.2 ≤ score
  ∧ score - Z.of_nat (length (filter
        (λ e, (Enemy_update SCREEN_WIDTH SCREEN_HEIGHT e).1 = true) es)) ≤ r.2.
Proof.
  induction es as [|e es IH]; intros score Hs; cbn [update_enemies]; cbv zeta.
  { cbn. lia. }
  rewrite filter_cons. cbn beta.
  destruct (Enemy_update SCREEN_WIDTH SCREEN_HEIGHT e) as [[] e'] eqn:He; cbn [fst].
  - rewrite (decide_True (P := true = true)) by done. cbn [length].
    case_decide.
    + destruct (IH (score - 1)) as (H1 & H2 & H3); [lia|]. lia.
    + destruct (IH score) as (H1 & H2 & H3); [lia|]. lia.
  - rewrite (decide_False (P := false = true)) by done.
    destruct (IH score Hs) as (H1 & H2 & H3).
    destruct (update_enemies SCREEN_WIDTH SCREEN_HEIGHT es score) as [rest' score']. cbn in *. lia.
Qed.

Lemma update_enemies_points (es : list Enemy) :
  ∀ score : Z,
  Forall (λ e, 0 ≤ enemy_points e) es →
  Forall (λ e, 0 ≤ enemy_points e) (update_enemies SCREEN_WIDTH SCREEN_HEIGHT es score).1.
Proof.
  induction es as [|e es IH]; intros score Hes; cbn [update_enemies]; [done|].
  apply Forall_cons in Hes as [He Hes].
  pose proof (Enemy_update_points e) as Hp.
  destruct (Enemy_update SCREEN_WIDTH SCREEN_HEIGHT e) as [[] e']; cbn [snd] in Hp.
  - by apply IH.
  - specialize (IH score Hes).
    destruct (update_enemies SCREEN_WIDTH SCREEN_HEIGHT es score) as [rest' score'].
    cbn in *. constructor; [lia|done].
Qed.

Lemma Enemy_init_points (d : EnemyDraw) : 0 ≤ enemy_points (Enemy_init ENEMY_SIZE d).
Proof. unfold Enemy_init. by destruct (draw_type d). Qed.

(** *** The player-enemy scan *)

(** An invulnerable player goes through the scan untouched. *)
Lemma scan_player_invulnerable (now hs : Z) (snapshot : list Enemy)
    (w : Field) (f : Leaderboard.file) :
  invulnerable (f_player w) = true →
  scan_player GAME_TITLES now hs snapshot (w, f) = (w, f).
Proof.
  intros Hinv. induction snapshot as [|e rest IH]; [done|].
  cbn [scan_player]. unfold enemy_hits_player, get_hit. rewrite Hinv. cbn [negb].
  by destruct (colliderect _ _).
Qed.

(** The scan either changes nothing, or the player is hit exactly once: one
    life is lost, and if none is left the session ends, the score being
    written only if it beats the cached high score. *)
Lemma scan_player_spec (now hs : Z) (snapshot : list Enemy) :
  ∀ (w : Field) (f : Leaderboard.file),
  let r := scan_player GAME_TITLES now hs snapshot (w, f) in
  f_score r.1 = f_score w
  ∧ (Forall (λ e, 0 ≤ enemy_points e) (f_enemies w)
     → Forall (λ e, 0 ≤ enemy_points e) (f_enemies r.1))
  ∧ (r = (w, f)
     ∨ (player_lives (f_player r.1) = player_lives (f_player w) - 1
        ∧ if decide (player_lives (f_player w) - 1 ≤ 0)
          then f_active r.1 = false ∧ f_over r.1 = true
               ∧ r.2 = (if decide (f_score w > hs)
                        then (Leaderboard.add_score GAME_TITLES "Space Shooter" (f_score w) f).2
                        else f)
          else f_active r.1 = f_active w ∧ f_over r.1 = f_over w ∧ r.2 = f)).
Proof.
  induction snapshot as [|e rest IH]; intros w f; cbn [scan_player]; cbv zeta.
  { split_and!; [done|done|by left]. }
  destruct (colliderect (player_rect (f_player w)) (enemy_rect e)) eqn:Hc.
  2: { replace (enemy_hits_player GAME_TITLES now hs e (w, f)) with (w, f)
         by (unfold enemy_hits_player; by rewrite Hc).
       apply IH. }
  destruct (invulnerable (f_player w)) eqn:Hinv.
  { replace (enemy_hits_player GAME_TITLES now hs e (w, f)) with (w, f)
      by (unfold enemy_hits_player, get_hit; by rewrite Hc, Hinv).
    apply IH. }
  destruct (enemy_hits_player GAME_TITLES now hs e (w, f)) as [w1 f1] eqn:Hstep.
  unfold enemy_hits_player, get_hit in Hstep. rewrite Hc, Hinv in Hstep.
  cbn [negb player_lives] in Hstep.
  case_decide as Hl; inversion Hstep; subst w1 f1; clear Hstep.
  all: rewrite scan_player_invulnerable by done; cbn.
  all: split_and!; [done|by apply obj_remove_Forall|right; done].
Qed.

(** *** One frame of play *)

Lemma Player_update_lives (k : Keys) (now : Z) (p : Player) :
  player_lives (Player_update SCREEN_WIDTH k now p) = player_lives p.
Proof. done. Qed.

(** What a frame of active play does to the lives, to the session flags and
    to the score file: nothing, or the player is hit once. *)
Lemma shooter_play_lives (d : Draws) (g : Game) (f : Leaderboard.file) :
  let r := play SCREEN_WIDTH SCREEN_HEIGHT ENEMY_FREQUENCY ENEMY_SIZE GAME_TITLES d g f in
  (player_lives (player r.1) = player_lives (player g)
   ∧ game_active r.1 = game_active g ∧ game_over r.1 = game_over g ∧ r.2 = f)
  ∨ (player_lives (player r.1) = player_lives (player g) - 1
     ∧ if decide (player_lives (player g) - 1 ≤ 0)
       then game_active r.1 = false ∧ game_over r.1 = true
            ∧ r.2 = (if decide (score r.1 > high_score g)
                     then (Leaderboard.add_score GAME_TITLES "Space Shooter"
                             (score r.1) f).2
                     else f)
       else game_active r.1 = game_active g ∧ game_over r.1 = game_over g ∧ r.2 = f).
Proof.
  intros r. subst r. unfold play.
  destruct (update_enemies SCREEN_WIDTH SCREEN_HEIGHT (enemies g) (score g))
    as [enemies1 score1].
  destruct (if decide (now d - last_enemy_time g > ENEMY_FREQUENCY) then _ else _)
    as [enemies2 last2].
  destruct (if decide (now d - wave_start_time g > 20000) then _ else _)
    as [[[wave3 start3] count3] score3].
  set (w0 := mkField _ _ _ _ _ _ _).
  destruct (scan_bullets_keeps (f_bullets w0) w0) as (B3 & B4 & B5).
  fold (bullet_enemy_collisions w0) in B3, B4, B5.
  destruct (scan_player_spec (now d) (high_score g)
              (f_enemies (bullet_enemy_collisions w0)) (bullet_enemy_collisions w0) f)
    as (P1 & _ & P3).
  unfold player_enemy_collisions. cbn [fst snd].
  destruct (scan_player GAME_TITLES (now d) (high_score g) _ _) as [w5 f5].
  cbn [fst snd score player game_active game_over] in *.
  rewrite B3, B4, B5 in P3. cbn [w0 f_player f_active f_over] in P3.
  rewrite Player_update_lives in P3.
  destruct P3 as [Heq|[Hl Hrest]].
  - left. inversion Heq; subst. rewrite B3, B4, B5. done.
  - right. split; [done|]. rewrite P1. done.
Qed.

(** What a frame of active play does to the score.  [escaped] counts the
    enemies that leave the screen in this frame. *)
Lemma shooter_play_score (d : Draws) (g : Game) (f : Leaderboard.file) :
  0 ≤ score g → 0 ≤ wave g →
  Forall (λ e, 0 ≤ enemy_points e) (enemies g) →
  let r := play SCREEN_WIDTH SCREEN_HEIGHT ENEMY_FREQUENCY ENEMY_SIZE GAME_TITLES d g f in
  let escaped := length (filter
        (λ e, (Enemy_update SCREEN_WIDTH SCREEN_HEIGHT e).1 = true) (enemies g)) in
  0 ≤ score r.1 ∧ score g - Z.of_nat escaped ≤ score r.1
  ∧ 0 ≤ wave r.1 ∧ Forall (λ e, 0 ≤ enemy_points e) (enemies r.1).
Proof.
  intros Hs Hw Hpts r escaped. subst r escaped. unfold play.
  destruct (update_enemies_score (enemies g) (score g) Hs) as (U1 & U2 & U3).
  pose proof (update_enemies_points (enemies g) (score g) Hpts) as U4.
  destruct (update_enemies SCREEN_WIDTH SCREEN_HEIGHT (enemies g) (score g))
    as [enemies1 score1].
  cbn [fst snd] in U1, U2, U3, U4.
  destruct (if decide (now d - last_enemy_time g > ENEMY_FREQUENCY) then _ else _)
    as [enemies2 last2] eqn:Hspawn.
  assert (E2 : Forall (λ e, 0 ≤ enemy_points e) enemies2).
  { repeat case_decide; inversion Hspawn; subst; try done.
    apply Forall_app. split; [done|]. constructor; [apply Enemy_init_points|done]. }
  destruct (if decide (now d - wave_start_time g > 20000) then _ else _)
    as [[[wave3 start3] count3] score3] eqn:Hwave.
  assert (W3 : 0 ≤ wave3 ∧ score1 ≤ score3).
  { case_decide; inversion Hwave; subst; lia. }
  clear Hspawn Hwave.
  set (w0 := mkField _ _ _ _ _ _ _).
  destruct (bullet_enemy_collisions_mono w0 E2) as (B1 & B2 & _).
  destruct (scan_player_spec (now d) (high_score g)
              (f_enemies (bullet_enemy_collisions w0)) (bullet_enemy_collisions w0) f)
    as (P1 & P2 & _).
  unfold player_enemy_collisions. cbn [fst snd].
  destruct (scan_player GAME_TITLES (now d) (high_score g) _ _) as [w5 f5].
  cbn [fst snd score wave enemies] in *. cbn [w0 f_score] in B1.
  split_and!; [lia|lia|lia|by apply P2].
Qed.

End WithConstants.

End ShooterFacts.

(** C1 (as amended).  In breakout the brick scan of a tick processes at most
    one collision for the ball.  If no brick overlaps the ball, nothing
    changes.  Otherwise the first brick of the list that overlaps it is hit
    (and leaves the live list only if that hit breaks it), the ball bounces
    off that brick, and no other brick is touched; so of two bricks that
    both overlap the ball exactly the first is hit, and the second stays as
    it is.  In the shooter the scan of a bullet is not cut short at its
    first overlap: every enemy that overlaps the bullet in the tick is
    scored and removed, while the bullet leaves the live list once. *)
Theorem C1_first_brick_every_enemy :
  (∀ (px py : Z) (b : Breakout.Ball) (bricks : list Breakout.Brick),
     let r := Breakout.brick_collisions px py b bricks in
     (Forall (λ k, Pygame.colliderect (Breakout.rect b) (Breakout.brick_rect k) = false) bricks
      ∧ r = (b, bricks, [], 0))
     ∨ ∃ pre k post,
         bricks = pre ++ k :: post
         ∧ Forall (λ k, Pygame.colliderect (Breakout.rect b) (Breakout.brick_rect k) = false) pre
         ∧ Pygame.colliderect (Breakout.rect b) (Breakout.brick_rect k) = true
         ∧ r.1.1.1 = Breakout.bounce px py (Breakout.hit k).2 b
         ∧ r.1.1.2 = pre ++ (if (Breakout.hit k).1.1 then post else (Breakout.hit k).2 :: post)
         ∧ r.1.2 = (if (Breakout.hit k).1.1 then [(Breakout.hit k).2] else [])
         ∧ r.2 = (if (Breakout.hit k).1.1 then Breakout.brick_points k else 0))
  ∧ (∀ (px py : Z) (b : Breakout.Ball) (k1 k2 : Breakout.Brick),
       Pygame.colliderect (Breakout.rect b) (Breakout.brick_rect k1) = true →
       Pygame.colliderect (Breakout.rect b) (Breakout.brick_rect k2) = true →
       let r := Breakout.brick_collisions px py b [k1; k2] in
       r.1.1.2 = (if (Breakout.hit k1).1.1 then [k2] else [(Breakout.hit k1).2; k2])
       ∧ r.1.2 = (if (Breakout.hit k1).1.1 then [(Breakout.hit k1).2] else [])
       ∧ r.2 = (if (Breakout.hit k1).1.1 then Breakout.brick_points k1 else 0)
       ∧ (Breakout.brick_strength k1 ≤ 1 → r.1.1.2 = [k2] ∧ length r.1.2 = 1%nat))
  ∧ (∀ (bullet : Shooter.Bullet) (w : Shooter.Field),
       NoDup (Shooter.enemy_oid <$> Shooter.f_enemies w) →
       NoDup (Shooter.bullet_oid <$> Shooter.f_bullets w) →
       let overlaps := λ e, Pygame.colliderect (Shooter.bullet_rect bullet) (Shooter.enemy_rect e) in
       let w' := Shooter.scan_enemies bullet (Shooter.f_enemies w) w in
       Shooter.f_enemies w' = filter (λ e, overlaps e = false) (Shooter.f_enemies w)
       ∧ Shooter.f_score w'
         = Shooter.f_score w
           + foldr Z.add 0 (Shooter.enemy_points <$>
               filter (λ e, overlaps e = true) (Shooter.f_enemies w))
       ∧ Shooter.f_bullets w'
         = (if decide (Exists (λ e, overlaps e = true) (Shooter.f_enemies w))
            then Shooter.obj_remove Shooter.bullet_oid bullet (Shooter.f_bullets w)
            else Shooter.f_bullets w)).
Proof.
  split_and!.
  - intros px py b bricks r. subst r.
    destruct (BreakoutFacts.first_overlap b bricks)
      as [Hnone|(pre & k & post & -> & Hpre & Hk)].
    + left. split; [done|]. by apply BreakoutFacts.brick_collisions_none.
    + right. exists pre, k, post.
      by rewrite BreakoutFacts.brick_collisions_first.
  - intros px py b k1 k2 H1 H2 r. subst r.
    change [k1; k2] with ([] ++ k1 :: [k2]).
    rewrite (BreakoutFacts.brick_collisions_first px py b [] [k2] k1) by done.
    cbn [fst snd app]. split_and!; try done.
    intros Hs. rewrite BreakoutFacts.hit_result. cbn [fst].
    by rewrite bool_decide_eq_true_2 by lia.
  - intros bullet w Hne Hnb overlaps w'.
    destruct (ShooterFacts.scan_enemies_spec bullet (Shooter.f_enemies w) [] w)
      as (He & Hs & Hb & _); done.
Qed.

Lemma C1_first_brick_every_enemy_witness :
  (let r := Breakout.brick_collisions 70 75 (Scene.ball_at 70 60 0 (-5))
              [Scene.weak_brick 5; Scene.weak_brick 84] in
   r.1.1.2 = [Scene.weak_brick 84] ∧ length r.1.2 = 1%nat ∧ r.2 = 10)
  ∧ (let w' := Shooter.scan_enemies Scene.bullet0 (Shooter.f_enemies Scene.field0)
                 Scene.field0 in
     Shooter.f_enemies w' = [] ∧ Shooter.f_score w' = 25 ∧ Shooter.f_bullets w' = []).
Proof.
  split.
  - destruct (proj1 (proj2 C1_first_brick_every_enemy) 70 75 (Scene.ball_at 70 60 0 (-5))
                (Scene.weak_brick 5) (Scene.weak_brick 84)) as (_ & _ & Hp & Hone).
    + reflexivity.
    + reflexivity.
    + destruct Hone as [Hl Hb]; [vm_compute; discriminate|].
      split_and!; [exact Hl|exact Hb|rewrite Hp; reflexivity].
  - destruct (proj2 (proj2 C1_first_brick_every_enemy) Scene.bullet0 Scene.field0)
      as (He & Hs & Hb).
    + apply (bool_decide_unpack _). reflexivity.
    + apply (bool_decide_unpack _). reflexivity.
    + split_and!; [rewrite He|rewrite Hs|rewrite Hb]; reflexivity.
Defined.

(** C1, as first stated, fails in the shooter: a bullet that overlaps two
    enemies in one tick scores against both of them (10 + 15 points) and
    both are removed. *)
Lemma C1_bullet_scores_twice :
  Pygame.colliderect (Shooter.bullet_rect Scene.bullet0) (Shooter.enemy_rect Scene.enemy_a) = true
  ∧ Pygame.colliderect (Shooter.bullet_rect Scene.bullet0) (Shooter.enemy_rect Scene.enemy_b) = true
  ∧ Shooter.f_score (Shooter.bullet_enemy_collisions Scene.field0)
    = Shooter.f_score Scene.field0 + 10 + 15
  ∧ Shooter.f_enemies (Shooter.bullet_enemy_collisions Scene.field0) = [].
Proof. split_and!; reflexivity. Qed.

(** The regression test of the specification: a ball that overlaps two
    adjacent one-hit bricks removes exactly the first of them. *)
Example ball_between_two_bricks :
  let r := Breakout.brick_collisions 70 75 (Scene.ball_at 70 60 0 (-5))
             [Scene.weak_brick 5; Scene.weak_brick 84] in
  Pygame.colliderect (Pygame.mkRect 70 60 20 20) (Breakout.brick_rect (Scene.weak_brick 5)) = true
  ∧ Pygame.colliderect (Pygame.mkRect 70 60 20 20) (Breakout.brick_rect (Scene.weak_brick 84)) = true
  ∧ r.1.1.2 = [Scene.weak_brick 84]
  ∧ r.2 = 10.
Proof. split_and!; reflexivity. Qed.

(** ** Breakout: the frame loop *)

Module BreakoutPlayFacts.
Import Pygame Breakout.

Section WithConstants.

Variables SCREEN_WIDTH SCREEN_HEIGHT : Z.
Variables BRICK_HEIGHT BRICK_ROWS BRICK_COLS : Z.
Variables PADDLE_WIDTH_BREAKOUT BALL_RADIUS : Z.
Variable GAME_TITLES : list string.
Variable colors : list (list Z).

(** *** Power-ups and lives *)

Lemma apply_powerup_lives (t : PowerUpType) (pl : Paddle * Z) :
  (apply_powerup t pl).2 = if decide (t = extra_life) then pl.2 + 1 else pl.2.
Proof. destruct pl as [p l]. by destruct t. Qed.

(** Catching power-ups never lowers [lives]; it raises it by one for each
    extra-life power-up caught, hence by at most the number of those in
    play, and not at all when there is none. *)
Lemma update_powerups_lives (ps : list PowerUp) :
  ∀ pl : Paddle * Z,
  let r := update_powerups SCREEN_HEIGHT ps pl in
  pl.2 ≤ r.2.2
  ∧ r.2.2 ≤ pl.2 + Z.of_nat (length (filter (λ p, powerup_type p = extra_life) ps)).
Proof.
  induction ps as [|p ps IH]; intros pl; cbn [update_powerups]; cbv zeta.
  { cbn. lia. }
  rewrite filter_cons. unfold PowerUp_update. cbn [powerup_rect powerup_type].
  case_bool_decide.
  - destruct (IH pl) as [H1 H2]. case_decide; cbn [length]; lia.
  - destruct (colliderect _ _).
    + destruct (IH (apply_powerup (powerup_type p) pl)) as [H1 H2].
      rewrite apply_powerup_lives in H1, H2.
      case_decide; cbn [length]; lia.
    + destruct (IH pl) as [H1 H2].
      destruct (update_powerups SCREEN_HEIGHT ps pl) as [rest' pl'].
      cbn [fst snd] in *. case_decide; cbn [length]; lia.
Qed.

Lemma spawn_powerups_types (d : Draws) (broken : list Brick) :
  ∀ i : nat,
  (∀ j, spawn_choice d j ≠ extra_life) →
  filter (λ p, powerup_type p = extra_life) (spawn_powerups d i broken) = [].
Proof.
  induction broken as [|k ks IH]; intros i Hd; cbn [spawn_powerups]; [done|].
  rewrite filter_app, IH by done.
  destruct (fltb _ _); [|done].
  rewrite filter_cons, decide_False; [done|]. apply Hd.
Qed.

(** *** Lives and the end of the session *)

(** What a frame of active play does to [lives], to the session flags and
    to the score file. *)
Lemma breakout_play_lives (d : Draws) (g : Game) (f : Leaderboard.file) :
  let r := play SCREEN_WIDTH SCREEN_HEIGHT BRICK_HEIGHT BRICK_ROWS BRICK_COLS
             PADDLE_WIDTH_BREAKOUT GAME_TITLES colors d g f in
  lives g - 1 ≤ lives r.1
  ∧ (filter (λ p, powerup_type p = extra_life) (powerups g) = [] →
     (∀ j, spawn_choice d j ≠ extra_life) → lives r.1 ≤ lives g)
  ∧ (0 < lives g → lives r.1 ≤ 0 → game_over r.1 = true ∧ game_active r.1 = false)
  ∧ (0 < lives r.1 →
     game_over r.1 = game_over g ∧ game_active r.1 = game_active g ∧ r.2 = f)
  ∧ (r.2 = f
     ∨ ∃ final, final > high_score g
         ∧ r.2 = (Leaderboard.add_score GAME_TITLES "Breakout" final f).2).
Proof.
  intros r. subst r. unfold play.
  destruct (Ball_update SCREEN_WIDTH _ _ _ _ _) as [[ball1 bricks1] [points broken]].
  set (spawned := spawn_powerups d 0 broken).
  pose proof (update_powerups_lives (powerups g ++ spawned)
                (Paddle_update SCREEN_WIDTH (controls d) (mouse_control g) (paddle g),
                 lives g)) as [L1 L2].
  assert (L3 : filter (λ p, powerup_type p = extra_life) (powerups g) = [] →
               (∀ j, spawn_choice d j ≠ extra_life) →
               (update_powerups SCREEN_HEIGHT (powerups g ++ spawned)
                  (Paddle_update SCREEN_WIDTH (controls d) (mouse_control g) (paddle g),
                   lives g)).2.2 ≤ lives g).
  { intros Hp Hd. rewrite filter_app, Hp in L2. subst spawned.
    rewrite spawn_powerups_types in L2 by done. cbn in L2. lia. }
  clear L2.
  destruct (update_powerups SCREEN_HEIGHT _ _) as [powerups2 [paddle2 lives2]].
  cbn [fst snd] in L1, L3.
  destruct (decide (top (rect ball1) > SCREEN_HEIGHT)) as [Hlost|Hkept];
    [destruct (decide (lives2 - 1 ≤ 0)) as [Hzero|Hleft];
       [destruct (decide (score g + points > high_score g)) as [Hbeat|Hlow]|]|];
    destruct bricks1 as [|k ks]; cbn [fst snd lives game_over game_active].
  all: split_and!; try done; try lia; try (intros; lia); try (by left).
  all: try (intros Hp Hd; specialize (L3 Hp Hd); lia).
  all: right; by exists (score g + points).
Qed.

(** *** The power-ups the paddle catches *)

(** The loop over the power-ups raises [lives] by exactly one for each
    extra-life power-up the paddle catches, and the power-ups that have not
    left the screen are afterwards either caught or still in play. *)
Lemma update_powerups_caught (ps : list PowerUp) :
  ∀ pl : Paddle * Z,
  let r := update_powerups SCREEN_HEIGHT ps pl in
  let caught := caught_powerups SCREEN_HEIGHT ps pl in
  r.2.2 = pl.2 + Z.of_nat (length (filter (λ p, powerup_type p = extra_life) caught))
  ∧ (λ p, (PowerUp_update SCREEN_HEIGHT p).2)
      <$> filter (λ p, (PowerUp_update SCREEN_HEIGHT p).1 = false) ps
    ≡ₚ caught ++ r.1.
Proof.
  induction ps as [|p ps IH]; intros pl;
    cbn [update_powerups caught_powerups]; cbv zeta.
  { cbn. split; [by rewrite Z.add_0_r|done]. }
  rewrite filter_cons.
  destruct (PowerUp_update SCREEN_HEIGHT p) as [off p'] eqn:Hup. cbn [fst snd].
  destruct off.
  - rewrite decide_False by done. apply IH.
  - rewrite decide_True by done. rewrite fmap_cons, Hup. cbn [snd].
    destruct (colliderect _ _).
    + destruct (IH (apply_powerup (powerup_type p') pl)) as [H1 H2].
      rewrite apply_powerup_lives in H1. rewrite filter_cons.
      split.
      * rewrite H1. case_decide; cbn [length]; lia.
      * cbn [app]. by f_equiv.
    + destruct (IH pl) as [H1 H2].
      destruct (update_powerups SCREEN_HEIGHT ps pl) as [rest' pl'].
      cbn [fst snd] in *. split; [done|].
      rewrite H2. by rewrite Permutation_middle.
Qed.

(** What a frame of active play does to [lives], exactly. *)
Lemma breakout_play_lives_exact (d : Draws) (g : Game) (f : Leaderboard.file) :
  let paddle1 := Paddle_update SCREEN_WIDTH (controls d) (mouse_control g) (paddle g) in
  let u := Ball_update SCREEN_WIDTH (wall_u1 d) (wall_u2 d) paddle1 (bricks g) (ball g) in
  let in_play := powerups g ++ spawn_powerups d 0 u.2.2 in
  let caught := caught_powerups SCREEN_HEIGHT in_play (paddle1, lives g) in
  let r := play SCREEN_WIDTH SCREEN_HEIGHT BRICK_HEIGHT BRICK_ROWS BRICK_COLS
             PADDLE_WIDTH_BREAKOUT GAME_TITLES colors d g f in
  lives r.1
  = lives g + Z.of_nat (length (filter (λ p, powerup_type p = extra_life) caught))
    - (if decide (top (rect u.1.1) > SCREEN_HEIGHT) then 1 else 0)
  ∧ (λ p, (PowerUp_update SCREEN_HEIGHT p).2)
      <$> filter (λ p, (PowerUp_update SCREEN_HEIGHT p).1 = false) in_play
    ≡ₚ caught ++ powerups r.1.
Proof.
  intros paddle1 u in_play caught r. subst r caught in_play u. unfold play.
  fold paddle1.
  destruct (Ball_update SCREEN_WIDTH _ _ _ _ _) as [[ball1 bricks1] [points broken]].
  cbn [fst snd].
  pose proof (update_powerups_caught (powerups g ++ spawn_powerups d 0 broken)
                (paddle1, lives g)) as [L1 L2].
  destruct (update_powerups SCREEN_HEIGHT _ _) as [powerups2 [paddle2 lives2]].
  cbn [fst snd] in L1, L2.
  destruct (decide (top (rect ball1) > SCREEN_HEIGHT)) as [Hlost|Hkept];
    [destruct (decide (lives2 - 1 ≤ 0)) as [Hzero|Hleft]|];
    destruct bricks1 as [|k ks]; cbn [fst snd lives powerups];
    (split; [lia|done]).
Qed.

(** *** The score *)

Lemma hit_points_kept (k : Brick) : brick_points (hit k).2 = brick_points k.
Proof. done. Qed.

Lemma Ball_update_points (u1 u2 : Q) (p : Paddle) (bricks : list Brick) (b : Ball) :
  Forall (λ k, 0 ≤ brick_points k) bricks →
  let r := Ball_update SCREEN_WIDTH u1 u2 p bricks b in
  0 ≤ r.2.1 ∧ Forall (λ k, 0 ≤ brick_points k) r.1.2.
Proof.
  intros Hpts r. subst r. destruct (attached b) eqn:Ha.
  { unfold Ball_update. rewrite Ha. done. }
  rewrite BreakoutFacts.Ball_update_flying by done. cbv zeta. cbn [fst snd].
  match goal with |- context [brick_collisions ?px ?py ?b1 bricks] =>
    destruct (BreakoutFacts.brick_collisions_at_most_one px py b1 bricks)
      as [(-> & _ & -> & _)|(pre & k & post & Hb & _ & _ & -> & _ & ->)] end; [done|].
  subst bricks. apply Forall_app in Hpts as [Hpre Hk].
  apply Forall_cons in Hk as [Hk Hpost].
  split; [by destruct (hit k).1.1|].
  apply Forall_app. split; [done|].
  destruct (hit k).1.1; [done|]. constructor; [by rewrite hit_points_kept|done].
Qed.

Lemma create_bricks_points :
  Forall (λ k, 0 ≤ brick_points k)
    (create_bricks SCREEN_WIDTH BRICK_HEIGHT BRICK_ROWS BRICK_COLS colors).
Proof.
  unfold create_bricks. apply Forall_concat, Forall_fmap, Forall_forall.
  intros row Hrow. apply elem_of_seqZ in Hrow.
  unfold create_row. apply Forall_fmap, Forall_forall. intros col _. cbn. lia.
Qed.

(** With bricks worth a non-negative number of points, a frame of play
    never lowers the score. *)
Lemma breakout_play_score (d : Draws) (g : Game) (f : Leaderboard.file) :
  Forall (λ k, 0 ≤ brick_points k) (bricks g) → 0 ≤ level g →
  let r := play SCREEN_WIDTH SCREEN_HEIGHT BRICK_HEIGHT BRICK_ROWS BRICK_COLS
             PADDLE_WIDTH_BREAKOUT GAME_TITLES colors d g f in
  score g ≤ score r.1
  ∧ Forall (λ k, 0 ≤ brick_points k) (bricks r.1) ∧ 0 ≤ level r.1.
Proof.
  intros Hpts Hlevel r. subst r. unfold play.
  pose proof (Ball_update_points (wall_u1 d) (wall_u2 d)
                (Paddle_update SCREEN_WIDTH (controls d) (mouse_control g) (paddle g))
                (bricks g) (ball g) Hpts) as [B1 B2].
  destruct (Ball_update SCREEN_WIDTH _ _ _ _ _) as [[ball1 bricks1] [points broken]].
  cbn [fst snd] in B1, B2.
  destruct (update_powerups SCREEN_HEIGHT _ _) as [powerups2 [paddle2 lives2]].
  destruct (decide (top (rect ball1) > SCREEN_HEIGHT));
    [destruct (decide (lives2 - 1 ≤ 0))|];
    destruct bricks1 as [|k ks]; cbn [fst snd score bricks level].
  all: split_and!; try done; try lia; apply create_bricks_points.
Qed.

End WithConstants.

End BreakoutPlayFacts.

(** ** Snake: the frame loop *)

Module SnakePlayFacts.
Import Snake.

Section WithConstants.

Variables SCREEN_WIDTH SCREEN_HEIGHT SNAKE_GRID_SIZE : Z.
Variable update_delay : Q.
Variable GAME_TITLES : list string.

Lemma update_score (s : Snake) :
  score (update SCREEN_WIDTH SCREEN_HEIGHT SNAKE_GRID_SIZE s) = score s.
Proof.
  unfold update. destruct (dead s); [done|].
  destruct (direction s). by repeat case_decide.
Qed.

(** A frame of play leaves the score as it is or adds the 10 points of
    [grow]. *)
Lemma snake_play_score (d : Draws) (g : Game) (f : Leaderboard.file) :
  let g' := (play SCREEN_WIDTH SCREEN_HEIGHT SNAKE_GRID_SIZE update_delay GAME_TITLES
               d g f).1 in
  score (snake g') = score (snake g) ∨ score (snake g') = score (snake g) + 10.
Proof.
  intros g'. subst g'. unfold play.
  destruct (Pygame.fltb _ _); [|by left].
  pose proof (update_score (snake g)) as Hu.
  destruct (dead _); case_decide; destruct (food_draws d); cbn; rewrite ?Hu; auto.
Qed.

(** When the snake dies its score is written to the file whatever the
    stored high score is. *)
Lemma play_records_on_death (d : Draws) (g : Game) (f : Leaderboard.file) :
  Pygame.fltb update_delay (current_time d - last_update g) = true →
  dead (update SCREEN_WIDTH SCREEN_HEIGHT SNAKE_GRID_SIZE (snake g)) = true →
  let r := play SCREEN_WIDTH SCREEN_HEIGHT SNAKE_GRID_SIZE update_delay GAME_TITLES d g f in
  game_over r.1 = true
  ∧ r.2 = (Leaderboard.add_score GAME_TITLES "Snake" (score (snake g)) f).2.
Proof.
  intros Hdue Hdead r. subst r. unfold play. rewrite Hdue, Hdead, update_score.
  by case_decide; destruct (food_draws d).
Qed.

End WithConstants.

End SnakePlayFacts.

(** C2.  The claim does not hold for Snake: a session that ends with 10
    points while the file holds a high score of 50 still writes to the
    file, which then lists 50 and 10.  (Breakout and the shooter write only
    a score above the high score they read at start.) *)
Theorem C2_snake_records_lower_score :
  let r := Snake.play 800 600 10 (1 # 10) Scene.titles
             Scene.snake_draws Scene.snake_game Scene.one_score in
  (Leaderboard.get_high_score Scene.titles "Snake" Scene.one_score).1 = 50
  ∧ Snake.game_over (Scene.snake_game) = false
  ∧ Snake.game_over r.1 = true
  ∧ Snake.score (Snake.snake r.1) = 10
  ∧ r.2 = Leaderboard.Doc {[ "Snake"%string := [50; 10] ]}
  ∧ r.2 ≠ Scene.one_score.
Proof.
  split_and!; try reflexivity.
  intros H.
  apply (f_equal (λ f, match f with
                       | Leaderboard.Doc m => m !! "Snake"%string
                       | _ => None
                       end)) in H.
  vm_compute in H. discriminate.
Qed.

(** C6 (as amended).  In breakout a frame raises [lives] by exactly one for
    each extra-life power-up the paddle catches in it and lowers it by one
    if the ball is lost, and changes it in no other way; the power-ups the
    paddle catches are among those in play that have not left the screen,
    and leave the live list.  Hence a frame lowers [lives] by at most one,
    and with no extra-life power-up in play the counter does not increase.
    In the shooter the counter never increases and a frame lowers it by at
    most one.  In both games, when a frame takes a positive counter to zero
    (or below) the session is in the game-over state at the end of that
    frame. *)
Theorem C6_lives_and_game_over :
  (∀ (SCREEN_WIDTH SCREEN_HEIGHT BRICK_HEIGHT BRICK_ROWS BRICK_COLS PADDLE_WIDTH : Z)
     (GAME_TITLES : list string) (colors : list (list Z))
     (d : Breakout.Draws) (g : Breakout.Game) (f : Leaderboard.file),
     let paddle1 :=
       Breakout.Paddle_update SCREEN_WIDTH (Breakout.controls d) (Breakout.mouse_control g)
         (Breakout.paddle g) in
     let u := Breakout.Ball_update SCREEN_WIDTH (Breakout.wall_u1 d) (Breakout.wall_u2 d)
                paddle1 (Breakout.bricks g) (Breakout.ball g) in
     let in_play := Breakout.powerups g ++ Breakout.spawn_powerups d 0 u.2.2 in
     let caught := Breakout.caught_powerups SCREEN_HEIGHT in_play (paddle1, Breakout.lives g) in
     let extra_lives :=
       Z.of_nat (length (filter (λ p, Breakout.powerup_type p = Breakout.extra_life) caught)) in
     let lost_ball :=
       if decide (Pygame.top (Breakout.rect u.1.1) > SCREEN_HEIGHT) then 1 else 0 in
     let r := Breakout.play SCREEN_WIDTH SCREEN_HEIGHT BRICK_HEIGHT BRICK_ROWS BRICK_COLS
                PADDLE_WIDTH GAME_TITLES colors d g f in
     Breakout.lives r.1 = Breakout.lives g + extra_lives - lost_ball
     ∧ (λ p, (Breakout.PowerUp_update SCREEN_HEIGHT p).2)
         <$> filter (λ p, (Breakout.PowerUp_update SCREEN_HEIGHT p).1 = false) in_play
       ≡ₚ caught ++ Breakout.powerups r.1
     ∧ Breakout.lives g - 1 ≤ Breakout.lives r.1
     ∧ (filter (λ p, Breakout.powerup_type p = Breakout.extra_life) (Breakout.powerups g) = [] →
        (∀ j, Breakout.spawn_choice d j ≠ Breakout.extra_life) →
        Breakout.lives r.1 ≤ Breakout.lives g)
     ∧ (0 < Breakout.lives g → Breakout.lives r.1 ≤ 0 →
        Breakout.game_over r.1 = true ∧ Breakout.game_active r.1 = false))
  ∧ (∀ (SCREEN_WIDTH SCREEN_HEIGHT ENEMY_FREQUENCY ENEMY_SIZE : Z)
       (GAME_TITLES : list string)
       (d : Shooter.Draws) (g : Shooter.Game) (f : Leaderboard.file),
       let r := Shooter.play SCREEN_WIDTH SCREEN_HEIGHT ENEMY_FREQUENCY ENEMY_SIZE
                  GAME_TITLES d g f in
       let before := Shooter.player_lives (Shooter.player g) in
       let after := Shooter.player_lives (Shooter.player r.1) in
       after ≤ before ∧ before - 1 ≤ after
       ∧ (0 < before → after ≤ 0 →
          Shooter.game_over r.1 = true ∧ Shooter.game_active r.1 = false)).
Proof.
  split.
  - intros. subst r extra_lives lost_ball caught in_play u paddle1.
    destruct (BreakoutPlayFacts.breakout_play_lives SCREEN_WIDTH SCREEN_HEIGHT BRICK_HEIGHT
                BRICK_ROWS BRICK_COLS PADDLE_WIDTH GAME_TITLES colors d g f)
      as (H1 & H2 & H3 & _).
    destruct (BreakoutPlayFacts.breakout_play_lives_exact SCREEN_WIDTH SCREEN_HEIGHT
                BRICK_HEIGHT BRICK_ROWS BRICK_COLS PADDLE_WIDTH GAME_TITLES colors d g f)
      as (E1 & E2).
    done.
  - intros. subst r before after.
    destruct (ShooterFacts.shooter_play_lives SCREEN_WIDTH SCREEN_HEIGHT ENEMY_FREQUENCY
                ENEMY_SIZE GAME_TITLES d g f) as [(-> & _)|(-> & Hrest)].
    + split_and!; [lia|lia|]. intros; lia.
    + split_and!; [lia|lia|]. intros Hpos Hzero.
      rewrite decide_True in Hrest by done. by destruct Hrest as (-> & -> & _).
Qed.

Lemma C6_lives_and_game_over_witness :
  (let r := Breakout.play 800 600 20 7 10 100 Scene.titles []
              Scene.breakout_draws Scene.last_ball_game Leaderboard.Missing in
   Breakout.lives r.1 ≤ Breakout.lives Scene.last_ball_game
   ∧ Breakout.game_over r.1 = true ∧ Breakout.game_active r.1 = false)
  ∧ (let r := Shooter.play 800 600 1000 40 Scene.titles
                Scene.shooter_draws Scene.last_life_game Leaderboard.Missing in
     Shooter.game_over r.1 = true ∧ Shooter.game_active r.1 = false).
Proof.
  split.
  - destruct (proj1 C6_lives_and_game_over 800 600 20 7 10 100 Scene.titles []
                Scene.breakout_draws Scene.last_ball_game Leaderboard.Missing)
      as (_ & _ & _ & Hno & Hover).
    split.
    + apply Hno; [reflexivity|intros j; vm_compute; discriminate].
    + apply Hover; [reflexivity|vm_compute; discriminate].
  - destruct (proj2 C6_lives_and_game_over 800 600 1000 40 Scene.titles
                Scene.shooter_draws Scene.last_life_game Leaderboard.Missing)
      as (_ & _ & Hover).
    apply Hover; [reflexivity|vm_compute; discriminate].
Defined.

(** C6, as first stated, fails in breakout: the paddle catches an
    extra-life power-up and [lives] goes from 3 to 4. *)
Lemma C6_extra_life_raises_lives :
  let r := Breakout.play 800 600 20 7 10 100 Scene.titles []
             Scene.breakout_draws Scene.breakout_game Leaderboard.Missing in
  Breakout.lives Scene.breakout_game = 3 ∧ Breakout.lives r.1 = 4
  ∧ Breakout.game_active r.1 = true.
Proof. split_and!; reflexivity. Qed.

(** C9.  The score of an active session is never negative and never
    decreases, except in the shooter, where each enemy that escapes below
    the screen costs one point while the score is positive: a frame of the
    shooter keeps the score non-negative and lowers it by at most the number
    of enemies escaped in that frame; frames of snake and breakout never
    lower it; every session starts from a score of 0. *)
Theorem C9_score_floor :
  (∀ (SCREEN_WIDTH SCREEN_HEIGHT ENEMY_FREQUENCY ENEMY_SIZE : Z)
     (GAME_TITLES : list string)
     (d : Shooter.Draws) (g : Shooter.Game) (f : Leaderboard.file),
     0 ≤ Shooter.score g → 0 ≤ Shooter.wave g →
     Forall (λ e, 0 ≤ Shooter.enemy_points e) (Shooter.enemies g) →
     let r := Shooter.play SCREEN_WIDTH SCREEN_HEIGHT ENEMY_FREQUENCY ENEMY_SIZE
                GAME_TITLES d g f in
     let escaped := length (filter
           (λ e, (Shooter.Enemy_update SCREEN_WIDTH SCREEN_HEIGHT e).1 = true)
           (Shooter.enemies g)) in
     0 ≤ Shooter.score r.1 ∧ Shooter.score g - Z.of_nat escaped ≤ Shooter.score r.1
     ∧ 0 ≤ Shooter.wave r.1
     ∧ Forall (λ e, 0 ≤ Shooter.enemy_points e) (Shooter.enemies r.1))
  ∧ (∀ (SCREEN_WIDTH SCREEN_HEIGHT : Z) (es : list Shooter.Enemy) (score : Z),
       0 ≤ score →
       let r := Shooter.update_enemies SCREEN_WIDTH SCREEN_HEIGHT es score in
       0 ≤ r.2 ∧ r.2 ≤ score)
  ∧ (∀ s : Snake.Snake, Snake.score (Snake.grow s) = Snake.score s + 10)
  ∧ (∀ (SCREEN_WIDTH SCREEN_HEIGHT SNAKE_GRID_SIZE : Z) (update_delay : Q)
       (GAME_TITLES : list string)
       (d : Snake.Draws) (g : Snake.Game) (f : Leaderboard.file),
       Snake.score (Snake.snake g)
       ≤ Snake.score (Snake.snake
           (Snake.play SCREEN_WIDTH SCREEN_HEIGHT SNAKE_GRID_SIZE update_delay
              GAME_TITLES d g f).1))
  ∧ (∀ (SCREEN_WIDTH SCREEN_HEIGHT BRICK_HEIGHT BRICK_ROWS BRICK_COLS PADDLE_WIDTH : Z)
       (GAME_TITLES : list string) (colors : list (list Z))
       (d : Breakout.Draws) (g : Breakout.Game) (f : Leaderboard.file),
       Forall (λ k, 0 ≤ Breakout.brick_points k) (Breakout.bricks g) →
       0 ≤ Breakout.level g →
       let r := Breakout.play SCREEN_WIDTH SCREEN_HEIGHT BRICK_HEIGHT BRICK_ROWS BRICK_COLS
                  PADDLE_WIDTH GAME_TITLES colors d g f in
       Breakout.score g ≤ Breakout.score r.1
       ∧ Forall (λ k, 0 ≤ Breakout.brick_points k) (Breakout.bricks r.1)
       ∧ 0 ≤ Breakout.level r.1)
  ∧ (∀ (W H S G : Z) (T : list string) (now : Z) (f : Leaderboard.file),
       Shooter.score (Shooter.new_game W H S G T now f).1 = 0
       ∧ Shooter.wave (Shooter.new_game W H S G T now f).1 = 1
       ∧ Shooter.enemies (Shooter.new_game W H S G T now f).1 = [])
  ∧ (∀ (W H : Z) (dir : Z * Z), Snake.score (Snake.reset W H dir) = 0)
  ∧ (∀ (W H BH BR BC PW R : Z) (T : list string) (colors : list (list Z)) (sign : Z)
       (f : Leaderboard.file),
       let g := (Breakout.new_game W H BH BR BC PW R T colors sign f).1 in
       Breakout.score g = 0 ∧ Breakout.level g = 1
       ∧ Forall (λ k, 0 ≤ Breakout.brick_points k) (Breakout.bricks g)).
Proof.
  split_and!.
  - intros. by apply ShooterFacts.shooter_play_score.
  - intros. subst r.
    destruct (ShooterFacts.update_enemies_score SCREEN_WIDTH SCREEN_HEIGHT es score)
      as (H1 & H2 & _); done.
  - done.
  - intros.
    destruct (SnakePlayFacts.snake_play_score SCREEN_WIDTH SCREEN_HEIGHT SNAKE_GRID_SIZE
                update_delay GAME_TITLES d g f) as [->| ->]; lia.
  - intros. by apply BreakoutPlayFacts.breakout_play_score.
  - intros. unfold Shooter.new_game.
    by destruct (Leaderboard.get_high_score _ _ _).
  - done.
  - intros. subst g. unfold Breakout.new_game.
    destruct (Leaderboard.get_high_score _ _ _). cbn.
    split_and!; [done|done|]. apply BreakoutPlayFacts.create_bricks_points.
Qed.

Lemma C9_score_floor_witness :
  let r := Shooter.play 800 600 1000 40 Scene.titles
             Scene.shooter_draws Scene.shooter_game Leaderboard.Missing in
  let escaped := length (filter
        (λ e, (Shooter.Enemy_update 800 600 e).1 = true)
        (Shooter.enemies Scene.shooter_game)) in
  0 ≤ Shooter.score r.1
  ∧ Shooter.score Scene.shooter_game - Z.of_nat escaped ≤ Shooter.score r.1
  ∧ 0 ≤ Shooter.wave r.1
  ∧ Forall (λ e, 0 ≤ Shooter.enemy_points e) (Shooter.enemies r.1).
Proof.
  apply (proj1 C9_score_floor 800 600 1000 40 Scene.titles
           Scene.shooter_draws Scene.shooter_game Leaderboard.Missing).
  - vm_compute. discriminate.
  - vm_compute. discriminate.
  - repeat constructor; vm_compute; discriminate.
Defined.
